(** * svtools.vcf.variant: the [Variant] class, one parsed VCF line

    A shallow embedding of [svtools/vcf/variant.py].  Python byte strings are
    [string]; the [info] dict is a [gmap string pyval]; the sets of FORMAT ids
    are [gset string]; uncaught exceptions and [exit(1)] are the [Err] results
    of an error monad, and the methods that mutate [self] run in a state monad
    whose state survives an exception, as the Python object does. *)

From Stdlib Require Import ZArith Ascii String List DecimalString.
From stdpp Require Import gmap strings list fin_maps.

Open Scope string_scope.

(** ** Python strings *)

Module PyStr.

Definition tab : ascii := "009"%char.
Definition nl : ascii := "010"%char.
Definition dquote : ascii := "034"%char.
Definition TAB : string := String tab "".
Definition NL : string := String nl "".
Definition DQUOTE : string := String dquote "".

(** [s.split(sep)] for a one-character separator: never empty, and the
    empty string splits into one empty piece. *)
Fixpoint split (sep : ascii) (s : string) : list string :=
  match s with
  | "" => [""]
  | String c s' =>
      if Ascii.eqb c sep then "" :: split sep s'
      else match split sep s' with
           | [] => [String c ""]
           | w :: ws => String c w :: ws
           end
  end.

(** [sep.join(l)] *)
Fixpoint join (sep : string) (l : list string) : string :=
  match l with
  | [] => ""
  | [x] => x
  | x :: xs => x ++ sep ++ join sep xs
  end.

(** Does the character occur in the string? *)
Fixpoint mem (c : ascii) (s : string) : bool :=
  match s with
  | "" => false
  | String d s' => Ascii.eqb d c || mem c s'
  end.

(** Number of occurrences of a character. *)
Fixpoint count (c : ascii) (s : string) : nat :=
  match s with
  | "" => 0
  | String d s' => (if Ascii.eqb d c then 1 else 0) + count c s'
  end.

(** The whitespace that [str.strip()] and [int()] drop. *)
Definition is_space (c : ascii) : bool :=
  let n := nat_of_ascii c in
  ((n =? 32) || ((9 <=? n) && (n <=? 13)))%nat.

Fixpoint lstrip (s : string) : string :=
  match s with
  | String c s' => if is_space c then lstrip s' else s
  | "" => ""
  end.

Fixpoint rev_string (acc s : string) : string :=
  match s with
  | "" => acc
  | String c s' => rev_string (String c acc) s'
  end.

Definition strip (s : string) : string :=
  rev_string "" (lstrip (rev_string "" (lstrip s))).

Definition digit_val (c : ascii) : option Z :=
  let n := nat_of_ascii c in
  if ((48 <=? n) && (n <=? 57))%nat then Some (Z.of_nat n - 48)%Z else None.

Fixpoint digits (acc : Z) (s : string) : option Z :=
  match s with
  | "" => Some acc
  | String c s' =>
      match digit_val c with
      | Some d => digits (10 * acc + d) s'
      | None => None
      end
  end.

(** [int(s)] on a byte string, base 10: surrounding whitespace is dropped,
    one sign is allowed, and at least one decimal digit must follow.
    [None] is the [ValueError].  (The underscores that Python 3.6 and later
    allow between digits are left out.) *)
Definition int (s : string) : option Z :=
  match strip s with
  | "" => None
  | String c r =>
      if Ascii.eqb c "-" then
        match r with "" => None | _ => Z.opp <$> digits 0 r end
      else if Ascii.eqb c "+" then
        match r with "" => None | _ => digits 0 r end
      else digits 0 (String c r)
  end.

(** [str(n)] for an integer. *)
Definition str_int (n : Z) : string := NilZero.string_of_int (Z.to_int n).

End PyStr.

(** ** Python values stored in the INFO dict *)

Inductive pyval :=
| PStr (s : string)
| PBool (b : bool)
| PInt (n : Z)
| PNone.

(** [bool(v)] *)
Definition truthy (v : pyval) : bool :=
  match v with
  | PStr s => negb (String.eqb s "")
  | PBool b => b
  | PInt n => negb (n =? 0)%Z
  | PNone => false
  end.

(** [str(v)], which is what ['%s' % v] formats. *)
Definition str (v : pyval) : string :=
  match v with
  | PStr s => s
  | PBool true => "True"
  | PBool false => "False"
  | PInt n => PyStr.str_int n
  | PNone => "None"
  end.

(** ** Exceptions *)

Inductive error :=
| IndexError
| ValueError
| KeyError (key : string)
| AttributeError
| SystemExit (code : Z) (stderr : string).

Inductive result (A : Type) :=
| Ok (a : A)
| Err (e : error).
Arguments Ok {A} a.
Arguments Err {A} e.

Definition rbind {A B} (r : result A) (k : A → result B) : result B :=
  match r with
  | Ok a => k a
  | Err e => Err e
  end.

Notation "'let*' x ':=' r 'in' k" := (rbind r (fun x => k))
  (at level 10, x name, r at level 100, k at level 200,
   format "'let*'  x  :=  r  'in'  '/' k").

(** [r] with [f] applied to its value, an error passed on. *)
Definition rmap {A B} (f : A → B) (r : result A) : result B :=
  match r with
  | Ok a => Ok (f a)
  | Err e => Err e
  end.

(** [l[i]] for a constant, non-negative index. *)
Definition index {A} (l : list A) (i : nat) : result A :=
  match l !! i with
  | Some x => Ok x
  | None => Err IndexError
  end.

(** [exit(1)] after a message on stderr. *)
Definition die {A} (msg : string) : result A := Err (SystemExit 1 msg).

(** [try: r except IndexError: h] *)
Definition except_IndexError {A} (r : result A) (h : result A) : result A :=
  match r with
  | Err IndexError => h
  | _ => r
  end.

(** ** The header context ([vcf]), consulted and never changed *)

Record InfoField := { info_id : string; info_type : string }.
Record FormatField := { format_id : string }.

Module Vcf.
Record t := {
  sample_list : list string;
  info_list : list InfoField;
  format_list : list FormatField
}.
End Vcf.

(** ** The Genotype collaborator

    [svtools.vcf.genotype.Genotype] is imported, not defined, by the module.
    The class below is its interface as [Variant] uses it: the constructor
    [Genotype(variant, gt)], [set_formats(tags, fields)], which updates a
    genotype in place, and [get_gt_string()], which may read the order of the
    active formats of the record that owns it.  The first two may raise (the
    caller guards them with [except IndexError]). *)
Class GenotypeClass (G : Type) := {
  Genotype : string → result G;
  set_formats : list string → list string → G → result G;
  Genotype_get_gt_string : list string → G → string
}.

Section Variant.
Context {G : Type} `{GenotypeClass G}.

Record Variant := {
  chrom : string;
  pos : Z;
  var_id : string;
  ref : string;
  alt : string;
  qual : string;
  filter_ : string;
  sample_list : list string;
  info_list : list InfoField;
  info : gmap string pyval;
  format_list : list FormatField;
  format_set : gset string;
  active_formats : gset string;
  active_format_list : list string;
  gts : option (gmap string G);
  format_string : option string;
  gts_string : option string
}.

Definition with_info (i : gmap string pyval) (self : Variant) : Variant :=
  {| chrom := chrom self; pos := pos self; var_id := var_id self;
     ref := ref self; alt := alt self; qual := qual self;
     filter_ := filter_ self; sample_list := sample_list self;
     info_list := info_list self; info := i;
     format_list := format_list self; format_set := format_set self;
     active_formats := active_formats self;
     active_format_list := active_format_list self;
     gts := gts self; format_string := format_string self;
     gts_string := gts_string self |}.

Definition with_active_format_list (l : list string) (self : Variant) : Variant :=
  {| chrom := chrom self; pos := pos self; var_id := var_id self;
     ref := ref self; alt := alt self; qual := qual self;
     filter_ := filter_ self; sample_list := sample_list self;
     info_list := info_list self; info := info self;
     format_list := format_list self; format_set := format_set self;
     active_formats := active_formats self;
     active_format_list := l;
     gts := gts self; format_string := format_string self;
     gts_string := gts_string self |}.

Definition with_gts (g : option (gmap string G)) (self : Variant) : Variant :=
  {| chrom := chrom self; pos := pos self; var_id := var_id self;
     ref := ref self; alt := alt self; qual := qual self;
     filter_ := filter_ self; sample_list := sample_list self;
     info_list := info_list self; info := info self;
     format_list := format_list self; format_set := format_set self;
     active_formats := active_formats self;
     active_format_list := active_format_list self;
     gts := g; format_string := format_string self;
     gts_string := gts_string self |}.

Definition with_format_string (f : option string) (self : Variant) : Variant :=
  {| chrom := chrom self; pos := pos self; var_id := var_id self;
     ref := ref self; alt := alt self; qual := qual self;
     filter_ := filter_ self; sample_list := sample_list self;
     info_list := info_list self; info := info self;
     format_list := format_list self; format_set := format_set self;
     active_formats := active_formats self;
     active_format_list := active_format_list self;
     gts := gts self; format_string := f;
     gts_string := gts_string self |}.

(** A method: it may change [self], and [self] as it was when an exception
    was raised is still there afterwards. *)
Definition M (A : Type) : Type := Variant → result A * Variant.

Definition ret {A} (a : A) : M A := λ self, (Ok a, self).
Definition raise {A} (e : error) : M A := λ self, (Err e, self).
Definition bind {A B} (m : M A) (k : A → M B) : M B :=
  λ self, match m self with
          | (Ok a, self') => k a self'
          | (Err e, self') => (Err e, self')
          end.
Definition lift {A} (r : result A) : M A := λ self, (r, self).
Definition get : M Variant := λ self, (Ok self, self).
Definition modify (f : Variant → Variant) : M unit := λ self, (Ok (), f self).

Notation "'let!' x ':=' m 'in' k" := (bind m (fun x => k))
  (at level 10, x name, m at level 100, k at level 200).

(** *** [update_active_format_list] *)

(** The loop of [update_active_format_list] (and of [get_format_string]):
    walk the declared formats, append the active ids. *)
Definition active_ids_in_order (fl : list FormatField) (active : gset string)
  : list string :=
  fold_left
    (λ new_list format,
       if bool_decide (format_id format ∈ active)
       then (new_list ++ [format_id format])%list else new_list)
    fl [].

Definition update_active_format_list : M unit :=
  modify (λ self,
    with_active_format_list
      (active_ids_in_order (format_list self) (active_formats self)) self).

(** *** [__init__] *)

(** One turn of the loop over the split INFO column:
    [if len(i) == 1: i.append(True)] then [self.info[i[0]] = i[1]]. *)
Definition info_store (d : gmap string pyval) (a : string) : gmap string pyval :=
  match PyStr.split "=" a with
  | [k] => <[k := PBool true]> d
  | k :: v :: _ => <[k := PStr v]> d
  | [] => d
  end.

Definition parse_info (column : string) : gmap string pyval :=
  fold_left info_store (PyStr.split ";" column) ∅.

Definition msg_columns : string :=
  PyStr.NL ++ "Error: VCF file must have at least 8 columns" ++ PyStr.NL.

Definition __init__ (var_list : list string) (vcf : Vcf.t) : result Variant :=
  let* chrom := index var_list 0 in
  let* pos_s := index var_list 1 in
  let* pos := match PyStr.int pos_s with
              | Some n => Ok n
              | None => Err ValueError
              end in
  let* var_id := index var_list 2 in
  let* ref := index var_list 3 in
  let* alt := index var_list 4 in
  let* qual := index var_list 5 in
  let* filter := index var_list 6 in
  if (length var_list <? 8)%nat then die msg_columns
  else
    let* format_string := index var_list 8 in
    let active_formats : gset string :=
      list_to_set (PyStr.split ":" format_string) in
    let gts_string := PyStr.join PyStr.TAB (drop 9 var_list) in
    let* info_column := index var_list 7 in
    Ok {| chrom := chrom; pos := pos; var_id := var_id; ref := ref;
          alt := alt; qual := qual; filter_ := filter;
          sample_list := Vcf.sample_list vcf;
          info_list := Vcf.info_list vcf;
          info := parse_info info_column;
          format_list := Vcf.format_list vcf;
          format_set := list_to_set (format_id <$> Vcf.format_list vcf);
          active_formats := active_formats;
          active_format_list :=
            active_ids_in_order (Vcf.format_list vcf) active_formats;
          gts := None;
          format_string := Some format_string;
          gts_string := Some gts_string |}.

(** *** [_parse_genotypes] *)

(** The body of the [try]: the name is bound to the new genotype and
    [set_formats] then fills it in place, so the entry that is left is the
    filled one. *)
Definition parse_sample (format_field_tags : list string)
    (sample_name sample_string : string) (gts : gmap string G)
  : result (gmap string G) :=
  let sample_field := PyStr.split ":" sample_string in
  let* gt := index sample_field 0 in
  let* g := Genotype gt in
  let* g' := set_formats format_field_tags sample_field g in
  Ok (<[sample_name := g']> gts).

Definition missing_sample (sample_name : string) (gts : gmap string G)
  : result (gmap string G) :=
  let* g := Genotype "./." in
  Ok (<[sample_name := g]> gts).

(** [for index, sample_string in enumerate(genotype_array)], from [index]. *)
Fixpoint parse_genotypes_from (self : Variant) (format_field_tags : list string)
    (index0 : nat) (genotype_array : list string) (gts : gmap string G)
  : result (gmap string G) :=
  match genotype_array with
  | [] => Ok gts
  | sample_string :: rest =>
      let* sample_name := index (sample_list self) index0 in
      let* gts' :=
        except_IndexError
          (parse_sample format_field_tags sample_name sample_string gts)
          (missing_sample sample_name gts) in
      parse_genotypes_from self format_field_tags (S index0) rest gts'
  end.

Definition _parse_genotypes (self : Variant)
    (format_field_tags genotype_array : list string)
  : result (gmap string G) :=
  parse_genotypes_from self format_field_tags 0 genotype_array ∅.

(** *** [set_info], [get_info] *)

Definition msg_info (field : string) : string :=
  PyStr.NL ++ "Error: invalid INFO field, " ++ PyStr.DQUOTE ++ field
    ++ PyStr.DQUOTE ++ PyStr.NL.

Definition set_info (field : string) (value : pyval) : M unit :=
  let! self := get in
  if bool_decide (field ∈ info_id <$> info_list self)
  then modify (with_info (<[field := value]> (info self)))
  else lift (die (msg_info field)).

Definition get_info (field : string) : M pyval :=
  let! self := get in
  match info self !! field with
  | Some v => ret v
  | None => raise (KeyError field)
  end.

(** *** [get_info_string] *)

Definition info_append (d : gmap string pyval) (i_list : list string)
    (info_field : InfoField) : list string :=
  match d !! info_id info_field with
  | Some v =>
      if String.eqb (info_type info_field) "Flag"
      then if truthy v then (i_list ++ [info_id info_field])%list else i_list
      else (i_list ++ [(info_id info_field ++ "=" ++ str v)%string])%list
  | None => i_list
  end.

Definition get_info_string (self : Variant) : string :=
  PyStr.join ";" (fold_left (info_append (info self)) (info_list self) []).

(** *** [get_format_string] *)

Definition get_format_string (self : Variant) : string :=
  match format_string self with
  | Some f => f
  | None =>
      PyStr.join ":" (active_ids_in_order (format_list self) (active_formats self))
  end.

(** *** [genotype] *)

Definition msg_sample (sample_name : string) : string :=
  PyStr.NL ++ "Error: invalid sample name, " ++ PyStr.DQUOTE ++ sample_name
    ++ PyStr.DQUOTE ++ PyStr.NL.

(** [x.split(...)] where [x] may be [None] *)
Definition attr {A} (x : option A) : result A :=
  match x with
  | Some a => Ok a
  | None => Err AttributeError
  end.

Definition genotype (sample_name : string) : M G :=
  let! self := get in
  let! _ :=
    match gts self with
    | None =>
        let! f := lift (attr (format_string self)) in
        let! g := lift (attr (gts_string self)) in
        let! parsed :=
          lift (_parse_genotypes self (PyStr.split ":" f)
                  (PyStr.split PyStr.tab g)) in
        let! _ := modify (with_gts (Some parsed)) in
        modify (with_format_string None)
    | Some _ => ret ()
    end in
  let! self := get in
  match gts self with
  | Some parsed =>
      match parsed !! sample_name with
      | Some g => ret g
      | None => lift (die (msg_sample sample_name))
      end
  | None => raise AttributeError
  end.

(** *** [get_gt_string] *)

(** [if self.gts]: neither [None] nor an empty dict. *)
Definition gts_truthy (self : Variant) : bool :=
  match gts self with
  | Some parsed => negb (bool_decide (parsed = ∅))
  | None => false
  end.

(** [self.genotype(s).get_gt_string() for s in self.sample_list] *)
Fixpoint genotype_strings (samples : list string) : M (list string) :=
  match samples with
  | [] => ret []
  | s :: rest =>
      let! g := genotype s in
      let! self := get in
      let x := Genotype_get_gt_string (active_format_list self) g in
      let! xs := genotype_strings rest in
      ret (x :: xs)
  end.

Definition get_gt_string (use_cached_gt_string : bool) : M (option string) :=
  let! self := get in
  if gts_truthy self then
    if use_cached_gt_string then ret (gts_string self)
    else
      let! cols := genotype_strings (sample_list self) in
      ret (Some (PyStr.join PyStr.TAB cols))
  else ret (gts_string self).

(** *** [get_var_string] *)

Definition msg_gts : string :=
  "Unable to construct or retrieve genotype string" ++ PyStr.NL.

Definition get_var_string (use_cached_gt_string : bool) : M string :=
  let! self := get in
  let fields :=
    [chrom self; PyStr.str_int (pos self); var_id self; ref self; alt self;
     qual self; filter_ self; get_info_string self] in
  if negb ((size (active_formats self) =? 0)%nat
           && bool_decide (format_string self = None))
  then
    let! gts_string := get_gt_string use_cached_gt_string in
    match gts_string with
    | None => lift (die msg_gts)
    | Some g =>
        let! self' := get in
        ret (PyStr.join PyStr.TAB (fields ++ [get_format_string self'; g])%list)
    end
  else ret (PyStr.join PyStr.TAB fields).

(** *** The record that [__init__] returns *)

(** What [__init__] builds from nine or more columns. *)
Definition built (c0 c2 c3 c4 c5 c6 c7 c8 : string) (p : Z)
    (gt : list string) (vcf : Vcf.t) : Variant :=
  {| chrom := c0; pos := p; var_id := c2; ref := c3; alt := c4; qual := c5;
     filter_ := c6;
     sample_list := Vcf.sample_list vcf;
     info_list := Vcf.info_list vcf;
     info := parse_info c7;
     format_list := Vcf.format_list vcf;
     format_set := list_to_set (format_id <$> Vcf.format_list vcf);
     active_formats := list_to_set (PyStr.split ":" c8);
     active_format_list :=
       active_ids_in_order (Vcf.format_list vcf)
         (list_to_set (PyStr.split ":" c8));
     gts := None;
     format_string := Some c8;
     gts_string := Some (PyStr.join PyStr.TAB gt) |}.

(** *** Resynthesis of the genotype columns *)

(** Resynthesis as the specification words it: ask the genotype of each
    declared sample, in header order, for its column. *)
Fixpoint columns_from_genotypes (parsed : gmap string G)
    (order samples : list string)
  : result (list string) :=
  match samples with
  | [] => Ok []
  | s :: rest =>
      match parsed !! s with
      | Some g =>
          rmap (cons (Genotype_get_gt_string order g))
               (columns_from_genotypes parsed order rest)
      | None => die (msg_sample s)
      end
  end.

End Variant.

Arguments Variant G : clear implicits.
Arguments M G A : clear implicits.

(** ** A Genotype to run the methods with *)

Module SpecGenotype.

(** Modelled from the spec: [svtools.vcf.genotype.Genotype] is missing from
    the sources.  A genotype record holds the call and the tag/value pairing
    of its sub-fields; it is made from the call string alone, [set_formats]
    pairs the ordered tags with the ordered raw values, and
    [get_gt_string] gives back the record's own column. *)
Record t := {
  call : string;
  format : list (string * string)
}.

(** Modelled from the spec: the constructor, from the call string. *)
Definition new (gt : string) : result t :=
  Ok {| call := gt; format := [] |}.

(** Modelled from the spec: [set_formats], the ordered tags paired with the
    ordered raw sub-field values. *)
Definition set_formats (tags values : list string) (g : t) : result t :=
  Ok {| call := call g; format := zip tags values |}.

(** Modelled from the spec: [get_gt_string], the sub-field values joined
    with [:], or the call alone when no sub-field was set. *)
Definition get_gt_string (_ : list string) (g : t) : string :=
  match format g with
  | [] => call g
  | fs => PyStr.join ":" (snd <$> fs)
  end.

#[export] Instance ops : GenotypeClass t := {
  Genotype := new;
  set_formats := set_formats;
  Genotype_get_gt_string := get_gt_string
}.

End SpecGenotype.
Export (hints) SpecGenotype.

(** ** The worked example of the specification *)

Module SpecExample.
Import PyStr.

Definition vcf : Vcf.t := {|
  Vcf.sample_list := ["S1"; "S2"];
  Vcf.info_list := [ {| info_id := "AF"; info_type := "Float" |};
                     {| info_id := "DB"; info_type := "Flag" |} ];
  Vcf.format_list := [ {| format_id := "GT" |}; {| format_id := "DP" |} ]
|}.

Definition var_list : list string :=
  ["chr1"; "100"; "rs1"; "A"; "G"; "50"; "PASS"; "AF=0.5;DB"; "GT:DP";
   "0/1:30"; "0/0:25"].

Definition line : string := join TAB var_list.

End SpecExample.

(** ** The INFO string as the specification words it *)

(** What the specification says of one declared INFO field: it is listed when
    it is present in the mapping, except that a Flag is listed only when its
    value is truthy. *)
Definition is_flag (f : InfoField) : bool := String.eqb (info_type f) "Flag".

Definition info_listed (d : gmap string pyval) (f : InfoField) : bool :=
  match d !! info_id f with
  | Some v => if is_flag f then truthy v else true
  | None => false
  end.

(** A Flag is written as the bare id, every other field as [id=value]. *)
Definition info_written (d : gmap string pyval) (f : InfoField) : string :=
  if is_flag f then info_id f
  else info_id f ++ "=" ++ str (default PNone (d !! info_id f)).

Definition info_string_spec (d : gmap string pyval) (fields : list InfoField)
  : string :=
  PyStr.join ";" (info_written d <$> filter (λ f, info_listed d f = true) fields).

(** The text of one INFO part in the serializer's own form: a Flag is its
    bare id, any other field is [id=value]. *)
Definition info_text (e : InfoField * string) : string :=
  if is_flag e.1 then info_id e.1 else info_id e.1 ++ "=" ++ e.2.

(** ** Parts of the INFO column *)

(** The key and the value that one part of the INFO column is stored as. *)
Definition key_of (part : string) : string := hd "" (PyStr.split "=" part).

Definition val_of (part : string) : pyval :=
  match PyStr.split "=" part with
  | _ :: v :: _ => PStr v
  | _ => PBool true
  end.

(** A string free of the two separators of the INFO column. *)
Definition clean (s : string) : Prop := PyStr.mem ";" s = false ∧ PyStr.mem "=" s = false.

(** ** Worked records *)

Module Records.
Import PyStr SpecGenotype.

(** The record of the specification's example line. *)
Definition record1 : Variant SpecGenotype.t :=
  built "chr1" "rs1" "A" "G" "50" "PASS" "AF=0.5;DB" "GT:DP" 100
    ["0/1:30"; "0/0:25"] SpecExample.vcf.

Definition raw1 : string := join TAB ["0/1:30"; "0/0:25"].

Definition g1 : SpecGenotype.t :=
  {| call := "0/1"; format := [("GT", "0/1"); ("DP", "30")] |}.

(** The same line with the two INFO parts the other way round. *)
Definition var_list_swapped : list string :=
  ["chr1"; "100"; "rs1"; "A"; "G"; "50"; "PASS"; "DB;AF=0.5"; "GT:DP";
   "0/1:30"; "0/0:25"].

(** Two declared samples, one genotype column. *)
Definition var_list_short : list string :=
  ["chr1"; "100"; "rs1"; "A"; "G"; "50"; "PASS"; "AF=0.5;DB"; "GT:DP";
   "0/1:30"].

Definition record_short : Variant SpecGenotype.t :=
  built "chr1" "rs1" "A" "G" "50" "PASS" "AF=0.5;DB" "GT:DP" 100
    ["0/1:30"] SpecExample.vcf.

(** A FORMAT column with a tag, [XX], that the header does not declare. *)
Definition var_list_unknown_tag : list string :=
  ["chr1"; "100"; "rs1"; "A"; "G"; "50"; "PASS"; "AF=0.5;DB"; "GT:XX";
   "0/1"; "0/0"].

Definition record_unknown_tag : Variant SpecGenotype.t :=
  built "chr1" "rs1" "A" "G" "50" "PASS" "AF=0.5;DB" "GT:XX" 100
    ["0/1"; "0/0"] SpecExample.vcf.

(** Eight columns, the position not a number. *)
Definition var_list_eight_bad_pos : list string :=
  ["chr1"; "x"; "rs1"; "A"; "G"; "50"; "PASS"; "AF=0.5"].

Definition var_list_eight : list string :=
  ["chr1"; "100"; "rs1"; "A"; "G"; "50"; "PASS"; "AF=0.5"].

(** An INFO column with a part that has two [=]. *)
Definition var_list_two_equals : list string :=
  ["chr1"; "100"; "rs1"; "A"; "G"; "50"; "PASS"; "AF=0.5=x;DB"; "GT:DP";
   "0/1:30"; "0/0:25"].

End Records.

(** ** Calls on a record *)

Section Calls.
Context {G : Type} `{GenotypeClass G}.

(** The genotype that one turn of the loop of [_parse_genotypes] stores for
    a column: the one made from the first sub-field and filled by
    [set_formats], or the one made from [./.] when either raised an
    IndexError. *)
Definition sample_genotype (format_field_tags : list string)
    (sample_string : string) : result G :=
  except_IndexError
    (let sample_field := PyStr.split ":" sample_string in
     let* gt := index sample_field 0 in
     let* g := Genotype gt in
     set_formats format_field_tags sample_field g)
    (Genotype "./.").

(** A call of one of the methods of the class. *)
Inductive call :=
| call_update_active_format_list
| call_set_info (field : string) (value : pyval)
| call_get_info (field : string)
| call_get_info_string
| call_get_format_string
| call_get_gt_string (use_cached_gt_string : bool)
| call_genotype (sample_name : string)
| call_get_var_string (use_cached_gt_string : bool).

(** The record after a call, whether the call returned or raised. *)
Definition after (self : Variant G) (c : call) : Variant G :=
  match c with
  | call_update_active_format_list => (update_active_format_list self).2
  | call_set_info field value => (set_info field value self).2
  | call_get_info field => (get_info field self).2
  | call_get_info_string => self
  | call_get_format_string => self
  | call_get_gt_string b => (get_gt_string b self).2
  | call_genotype sample_name => (genotype sample_name self).2
  | call_get_var_string b => (get_var_string b self).2
  end.

Definition after_all (self : Variant G) (cs : list call) : Variant G :=
  fold_left after cs self.

(** What the calls keep of a record [v] just built, in a later state
    [self]: exactly one of the cached FORMAT string and the parsed mapping
    is there, the mapping is not empty, the raw genotype columns are the
    ones read, and the fixed columns and the header's lists are as they
    were, INFO apart. *)
Definition kept (v self : Variant G) : Prop :=
  (gts self = None ↔ is_Some (format_string self))
  ∧ gts self ≠ Some ∅
  ∧ is_Some (gts_string v) ∧ gts_string self = gts_string v
  ∧ (chrom self, pos self, var_id self, ref self, alt self, qual self,
     filter_ self)
    = (chrom v, pos v, var_id v, ref v, alt v, qual v, filter_ v)
  ∧ (sample_list self, info_list self, format_list self)
    = (sample_list v, info_list v, format_list v).

End Calls.


(** ** More worked records *)

Module RaisingGenotype.

(** A Genotype class that raises, to run the error paths of the parse with:
    its constructor raises ValueError on an empty call and IndexError on the
    call [?]; a genotype is its call. *)
Definition t : Type := string.

Definition new (gt : string) : result t :=
  if String.eqb gt "" then Err ValueError
  else if String.eqb gt "?" then Err IndexError
  else Ok gt.

#[export] Instance ops : GenotypeClass t := {
  Genotype := new;
  set_formats := λ _ _ g, Ok g;
  Genotype_get_gt_string := λ _ g, g
}.

End RaisingGenotype.

Module MoreRecords.
Import PyStr SpecGenotype.

(** The example line with a key, [XX], that the header does not declare. *)
Definition var_list_undeclared_info : list string :=
  ["chr1"; "100"; "rs1"; "A"; "G"; "50"; "PASS"; "AF=0.5;XX=1;DB"; "GT:DP";
   "0/1:30"; "0/0:25"].

Definition record_undeclared_info : Variant SpecGenotype.t :=
  built "chr1" "rs1" "A" "G" "50" "PASS" "AF=0.5;XX=1;DB" "GT:DP" 100
    ["0/1:30"; "0/0:25"] SpecExample.vcf.

(** A header with one sample, and a line with two genotype columns. *)
Definition vcf_one_sample : Vcf.t := {|
  Vcf.sample_list := ["S1"];
  Vcf.info_list := Vcf.info_list SpecExample.vcf;
  Vcf.format_list := Vcf.format_list SpecExample.vcf
|}.

Definition record_extra_column : Variant SpecGenotype.t :=
  built "chr1" "rs1" "A" "G" "50" "PASS" "AF=0.5;DB" "GT:DP" 100
    ["0/1:30"; "0/0:25"] vcf_one_sample.

(** Nine columns: a FORMAT column and no genotype column. *)
Definition var_list_nine : list string :=
  ["chr1"; "100"; "rs1"; "A"; "G"; "50"; "PASS"; "AF=0.5;DB"; "GT:DP"].

Definition record_nine : Variant SpecGenotype.t :=
  built "chr1" "rs1" "A" "G" "50" "PASS" "AF=0.5;DB" "GT:DP" 100 []
    SpecExample.vcf.

(** The example record after its first genotype access. *)
Definition record1_parsed : Variant SpecGenotype.t :=
  (genotype "S1" Records.record1).2.

Definition g2 : SpecGenotype.t :=
  {| call := "0/0"; format := [("GT", "0/0"); ("DP", "25")] |}.

Definition parsed1 : gmap string SpecGenotype.t :=
  <["S2" := g2]> (<["S1" := Records.g1]> ∅).

(** The example record with the raising Genotype class. *)
Definition record_raising : Variant RaisingGenotype.t :=
  built "chr1" "rs1" "A" "G" "50" "PASS" "AF=0.5;DB" "GT:DP" 100
    ["0/1:30"; ":25"] SpecExample.vcf.

(** The INFO parts of the example line, as declared fields and values. *)
Definition used1 : list (InfoField * string) :=
  [({| info_id := "AF"; info_type := "Float" |}, "0.5");
   ({| info_id := "DB"; info_type := "Flag" |}, "")].

End MoreRecords.

(** * Properties *)

(** ** [split], [join], [mem], [count] *)

Section StringLemmas.
Import PyStr.

Lemma split_nonempty sep s : split sep s ≠ [].
Proof.
  destruct s as [|c s]; simpl; [done|].
  destruct (Ascii.eqb c sep); [done|].
  by destruct (split sep s).
Qed.

Lemma split_cons_inv sep s : ∃ w ws, split sep s = w :: ws.
Proof.
  destruct (split sep s) as [|w ws] eqn:E; [by apply split_nonempty in E|eauto].
Qed.

Lemma split_no_sep_id sep s : mem sep s = false → split sep s = [s].
Proof.
  induction s as [|c s IH]; simpl; [done|].
  intros [Hc Hs]%orb_false_elim. rewrite Hc, (IH Hs). done.
Qed.

Lemma mem_app c s t : mem c (s ++ t) = mem c s || mem c t.
Proof.
  induction s as [|d s IH]; simpl; [done|]. by rewrite IH, orb_assoc.
Qed.

Lemma count_app c s t : count c (s ++ t) = count c s + count c t.
Proof.
  induction s as [|d s IH]; simpl; [done|]. rewrite IH. lia.
Qed.

Lemma count_mem_false c s : mem c s = false → count c s = 0.
Proof.
  induction s as [|d s IH]; simpl; [done|].
  intros [Hd Hs]%orb_false_elim. rewrite Hd, (IH Hs). done.
Qed.

Lemma count_pos_mem c s : 0 < count c s → mem c s = true.
Proof.
  destruct (mem c s) eqn:E; [done|]. rewrite (count_mem_false _ _ E). lia.
Qed.

(** Splitting at the first separator. *)
Lemma split_app_sep sep x y :
  mem sep x = false → split sep (x ++ String sep y) = x :: split sep y.
Proof.
  induction x as [|c x IH]; simpl.
  - intros _. by rewrite Ascii.eqb_refl.
  - intros [Hc Hx]%orb_false_elim. rewrite Hc, (IH Hx). done.
Qed.

(** A string with the separator in it has a first occurrence. *)
Lemma mem_first sep s :
  mem sep s = true →
  ∃ x y, s = x ++ String sep y ∧ mem sep x = false
         ∧ count sep s = S (count sep y).
Proof.
  induction s as [|c s IH]; simpl; [done|].
  destruct (Ascii.eqb c sep) eqn:E; simpl.
  - intros _. apply Ascii.eqb_eq in E as ->. by exists "", s.
  - intros (x & y & -> & Hx & Hc)%IH. exists (String c x), y.
    simpl. rewrite E, Hx. done.
Qed.

(** No piece of a split holds the separator. *)
Lemma split_pieces_no_sep sep s : Forall (λ w, mem sep w = false) (split sep s).
Proof.
  induction s as [|c s IH]; simpl; [by repeat constructor|].
  destruct (Ascii.eqb c sep) eqn:E; [by constructor|].
  destruct (split sep s) as [|w ws]; [by repeat constructor; simpl; rewrite E|].
  inversion IH; subst. constructor; [simpl; by rewrite E|done].
Qed.

(** A character of a piece is a character of the whole. *)
Lemma split_pieces_mem sep c s :
  mem c s = false → Forall (λ w, mem c w = false) (split sep s).
Proof.
  induction s as [|d s IH]; simpl; [by repeat constructor|].
  intros [Hd Hs]%orb_false_elim. specialize (IH Hs).
  destruct (Ascii.eqb d sep); [by constructor|].
  destruct (split sep s) as [|w ws]; [by repeat constructor; simpl; rewrite Hd|].
  inversion IH; subst. constructor; [simpl; by rewrite Hd|done].
Qed.

Lemma join_cons sep x y l :
  join sep (x :: y :: l) = x ++ sep ++ join sep (y :: l).
Proof. done. Qed.

(** [sep.join(s.split(sep)) == s] *)
Lemma join_split sep s : join (String sep "") (split sep s) = s.
Proof.
  induction s as [|c s IH]; simpl; [done|].
  destruct (split_cons_inv sep s) as (w & ws & E). rewrite E in *.
  destruct (Ascii.eqb c sep) eqn:Ec.
  - apply Ascii.eqb_eq in Ec as ->. rewrite join_cons, IH. done.
  - destruct ws as [|w' ws]; simpl in *; by rewrite <- IH.
Qed.

(** [sep.join(l).split(sep) == l] when no item of [l] holds the separator
    and [l] is not empty. *)
Lemma split_join sep l :
  l ≠ [] → Forall (λ w, mem sep w = false) l →
  split sep (join (String sep "") l) = l.
Proof.
  induction l as [|x l IH]; [done|]. intros _ Hall.
  inversion Hall as [|? ? Hx Hl]; subst.
  destruct l as [|y l]; [by apply split_no_sep_id|].
  rewrite join_cons. change (String sep "" ++ ?t) with (String sep t).
  rewrite split_app_sep by done. f_equal. by apply IH.
Qed.

End StringLemmas.

(** ** The FORMAT order *)

Section FormatOrder.
Context {G : Type}.
Implicit Types self : Variant G.

(** The loop with its accumulator is a filter of the declared ids. *)
Lemma active_ids_in_order_filter (fl : list FormatField) (active : gset string) :
  active_ids_in_order fl active
  = filter (λ t, t ∈ active) (format_id <$> fl).
Proof.
  unfold active_ids_in_order.
  enough (∀ acc,
    fold_left
      (λ new_list format,
         if bool_decide (format_id format ∈ active)
         then (new_list ++ [format_id format])%list else new_list) fl acc
    = (acc ++ filter (λ t, t ∈ active) (format_id <$> fl))%list) as Hacc
    by apply (Hacc []).
  induction fl as [|f fl IH]; intros acc; simpl.
  - by rewrite app_nil_r.
  - rewrite IH, filter_cons. case_bool_decide; case_decide; try done.
    by rewrite <- app_assoc.
Qed.

Lemma active_ids_in_order_elem (fl : list FormatField) (active : gset string) t :
  t ∈ active_ids_in_order fl active ↔ t ∈ active ∧ t ∈ format_id <$> fl.
Proof. rewrite active_ids_in_order_filter. by rewrite list_elem_of_filter. Qed.

(** C7: after [update_active_format_list] the active format order is the
    header's declared FORMAT order filtered to the active format ids, the
    active set itself is untouched, and an active tag the header does not
    declare stays in the set, is absent from the derived order and is not
    among the tags joined into a resynthesized FORMAT string. *)
Theorem C7_update_active_format_list self :
  let self' := (update_active_format_list self).2 in
  (update_active_format_list self).1 = Ok ()
  ∧ active_format_list self'
    = filter (λ t, t ∈ active_formats self) (format_id <$> format_list self)
  ∧ active_formats self' = active_formats self
  ∧ get_format_string (with_format_string None self')
    = PyStr.join ":" (active_format_list self')
  ∧ ∀ tag, tag ∈ active_formats self →
           tag ∉ format_id <$> format_list self →
           tag ∈ active_formats self' ∧ tag ∉ active_format_list self'.
Proof.
  simpl. rewrite <- active_ids_in_order_filter.
  repeat split; try done.
  intros [_ Hdecl]%active_ids_in_order_elem. done.
Qed.

End FormatOrder.

(** ** The INFO mapping and its string *)

Section Info.
Context {G : Type}.
Implicit Types self : Variant G.

Lemma info_append_step (d : gmap string pyval) acc (f : InfoField) :
  info_append d acc f
  = if info_listed d f then (acc ++ [info_written d f])%list else acc.
Proof.
  unfold info_append, info_listed, info_written, is_flag.
  destruct (d !! info_id f) as [v|]; simpl; [|done].
  destruct (String.eqb (info_type f) "Flag"); [|done].
  by destruct (truthy v).
Qed.

Lemma info_append_fold (d : gmap string pyval) (fields : list InfoField) acc :
  fold_left (info_append d) fields acc
  = (acc ++ (info_written d <$> filter (λ f, info_listed d f = true) fields))%list.
Proof.
  revert acc. induction fields as [|f fields IH]; intros acc; simpl.
  - by rewrite app_nil_r.
  - rewrite IH, filter_cons, info_append_step.
    destruct (info_listed d f); case_decide; try done.
    by rewrite fmap_cons, <- app_assoc.
Qed.

Lemma get_info_string_spec self :
  get_info_string self = info_string_spec (info self) (info_list self).
Proof. unfold get_info_string. by rewrite info_append_fold. Qed.

Lemma set_info_declared self field value :
  field ∈ info_id <$> info_list self →
  set_info field value self
  = (Ok (), with_info (<[field := value]> (info self)) self).
Proof.
  intros Hin. unfold set_info, bind, get; simpl.
  by rewrite bool_decide_eq_true_2.
Qed.

Lemma set_info_undeclared self field value :
  field ∉ info_id <$> info_list self →
  set_info field value self = (Err (SystemExit 1 (msg_info field)), self).
Proof.
  intros Hin. unfold set_info, bind, get; simpl.
  by rewrite bool_decide_eq_false_2.
Qed.

(** C6: [set_info] on an id the header does not declare fails (the message
    on stderr, then [exit(1)]) and leaves the record, so its info mapping,
    as it was; on a declared id it succeeds and the mapping holds the new
    value under that id, every other key as before. *)
Theorem C6_set_info self field value :
  (field ∉ info_id <$> info_list self →
     (set_info field value self).1 = Err (SystemExit 1 (msg_info field))
     ∧ (set_info field value self).2 = self)
  ∧ (field ∈ info_id <$> info_list self →
     (set_info field value self).1 = Ok ()
     ∧ info (set_info field value self).2 = <[field := value]> (info self)
     ∧ info (set_info field value self).2 !! field = Some value
     ∧ ∀ k, k ≠ field →
            info (set_info field value self).2 !! k = info self !! k).
Proof.
  split; intros Hin.
  - by rewrite set_info_undeclared.
  - rewrite set_info_declared by done. simpl.
    repeat split; [apply lookup_insert_eq|].
    intros k Hk. by apply lookup_insert_ne.
Qed.

Lemma set_info_state self field value :
  (set_info field value self).2
  = if bool_decide (field ∈ info_id <$> info_list self)
    then with_info (<[field := value]> (info self)) self else self.
Proof. unfold set_info, bind, get; simpl. by case_bool_decide. Qed.

Lemma set_info_commute self k1 v1 k2 v2 :
  k1 ≠ k2 →
  (set_info k2 v2 (set_info k1 v1 self).2).2
  = (set_info k1 v1 (set_info k2 v2 self).2).2.
Proof.
  intros Hne. rewrite !set_info_state.
  destruct (bool_decide (k1 ∈ info_id <$> info_list self)) eqn:H1;
    destruct (bool_decide (k2 ∈ info_id <$> info_list self)) eqn:H2;
    simpl; rewrite ?H1, ?H2; try done.
  unfold with_info; simpl. f_equal. by apply insert_insert_ne.
Qed.

(** C4: the INFO string is the [;]-join, over the header's declared INFO
    fields in declared order, of those present in the mapping, a Flag
    written as its bare id and only when its value is truthy, any other
    field written [id=value]; two writes to different ids give the same
    string in either order. *)
Theorem C4_get_info_string self :
  get_info_string self
  = PyStr.join ";"
      (info_written (info self)
         <$> filter (λ f, info_listed (info self) f = true) (info_list self))
  ∧ (∀ f, info_listed (info self) f = true ↔
          ∃ v, info self !! info_id f = Some v
               ∧ (info_type f = "Flag" → truthy v = true))
  ∧ (∀ f v, info self !! info_id f = Some v →
            info_written (info self) f
            = if String.eqb (info_type f) "Flag" then info_id f
              else info_id f ++ "=" ++ str v)
  ∧ (∀ k1 v1 k2 v2, k1 ≠ k2 →
       get_info_string (set_info k2 v2 (set_info k1 v1 self).2).2
       = get_info_string (set_info k1 v1 (set_info k2 v2 self).2).2).
Proof.
  split; [apply get_info_string_spec|]. repeat split.
  - unfold info_listed, is_flag. destruct (info self !! info_id f) as [v|]; [|done].
    intros Hl. exists v. split; [done|]. intros Hf.
    by rewrite Hf in Hl.
  - unfold info_listed, is_flag. intros (v & -> & Hv).
    destruct (String.eqb_spec (info_type f) "Flag"); auto.
  - intros f v Hv. unfold info_written, is_flag. by rewrite Hv.
  - intros. by rewrite set_info_commute.
Qed.

End Info.

(** ** Construction *)

Section Construction.
Context {G : Type}.
Implicit Types (v : Variant G) (var_list : list string) (vcf : Vcf.t).

Lemma init_nine c0 c1 c2 c3 c4 c5 c6 c7 c8 gt p vcf :
  PyStr.int c1 = Some p →
  __init__ (c0 :: c1 :: c2 :: c3 :: c4 :: c5 :: c6 :: c7 :: c8 :: gt) vcf
  = Ok (built (G:=G) c0 c2 c3 c4 c5 c6 c7 c8 p gt vcf).
Proof. intros Hp. unfold __init__; simpl. by rewrite Hp. Qed.

Lemma init_Ok_inv var_list vcf v :
  __init__ var_list vcf = Ok v →
  ∃ c0 c1 c2 c3 c4 c5 c6 c7 c8 gt p,
    var_list = c0 :: c1 :: c2 :: c3 :: c4 :: c5 :: c6 :: c7 :: c8 :: gt
    ∧ PyStr.int c1 = Some p
    ∧ v = built c0 c2 c3 c4 c5 c6 c7 c8 p gt vcf.
Proof.
  intros Hv.
  do 9 (destruct var_list as [|? var_list];
        [unfold __init__ in Hv; simpl in Hv;
         repeat (match type of Hv with
                 | context [PyStr.int ?s] => destruct (PyStr.int s)
                 end; simpl in Hv);
         discriminate|]).
  unfold __init__ in Hv; simpl in Hv.
  destruct (PyStr.int s0) as [p|] eqn:Hp; simpl in Hv; [|discriminate].
  injection Hv as <-. by repeat eexists.
Qed.

Lemma init_eight c0 c1 c2 c3 c4 c5 c6 c7 p vcf :
  PyStr.int c1 = Some p →
  __init__ (G:=G) [c0; c1; c2; c3; c4; c5; c6; c7] vcf = Err IndexError.
Proof. intros Hp. unfold __init__; simpl. by rewrite Hp. Qed.

Lemma init_seven c0 c1 c2 c3 c4 c5 c6 p vcf :
  PyStr.int c1 = Some p →
  __init__ (G:=G) [c0; c1; c2; c3; c4; c5; c6] vcf = die msg_columns.
Proof. intros Hp. unfold __init__; simpl. by rewrite Hp. Qed.

Lemma init_not_numeric c0 c1 rest vcf :
  PyStr.int c1 = None →
  __init__ (G:=G) (c0 :: c1 :: rest) vcf = Err ValueError.
Proof. intros Hp. unfold __init__; simpl. by rewrite Hp. Qed.

(** Fewer than seven columns: a read of a fixed column is out of range
    before the check on the number of columns is reached. *)
Lemma init_too_short var_list vcf :
  (length var_list < 7)%nat →
  __init__ (G:=G) var_list vcf = Err IndexError
  ∨ __init__ (G:=G) var_list vcf = Err ValueError.
Proof.
  intros Hlen. unfold __init__.
  do 7 (destruct var_list as [|? var_list];
        [simpl; repeat (match goal with
                        | |- context [PyStr.int ?s] => destruct (PyStr.int s)
                        end; simpl); auto|]).
  simpl in Hlen. lia.
Qed.

(** C9: an input of exactly eight columns whose position column is an
    integer passes the check on the number of columns and then fails on the
    read of the ninth column, with an IndexError; construction succeeds
    only with nine columns or more, and does succeed with nine or more
    when the position is an integer. *)
Theorem C9_init_eight_columns var_list vcf :
  (length var_list = 8 →
   (∃ s p, var_list !! 1 = Some s ∧ PyStr.int s = Some p) →
   __init__ (G:=G) var_list vcf = Err IndexError)
  ∧ (∀ v, __init__ var_list vcf = Ok v → (9 ≤ length var_list)%nat)
  ∧ ((9 ≤ length var_list)%nat →
     (∃ s p, var_list !! 1 = Some s ∧ PyStr.int s = Some p) →
     ∃ v, __init__ var_list vcf = Ok v).
Proof.
  repeat split.
  - intros Hlen (s & p & Hs & Hp).
    do 8 (destruct var_list as [|? var_list]; [discriminate Hlen|]).
    destruct var_list; [|discriminate Hlen].
    simpl in Hs. injection Hs as ->. by eapply init_eight.
  - intros v (c0&c1&c2&c3&c4&c5&c6&c7&c8&gt&p&->&_)%init_Ok_inv.
    simpl. lia.
  - intros Hlen (s & p & Hs & Hp).
    do 9 (destruct var_list as [|? var_list]; [simpl in Hlen; lia|]).
    simpl in Hs. injection Hs as ->. eexists. by eapply init_nine.
Qed.

(** C5: what the constructor does on an input of eight columns with an
    integer position, which passes its own check ([len(var_list) < 8]) and
    is refused all the same, and on an input too short to reach that
    check. *)
Theorem C5_init_eight_columns_refused :
  __init__ (G:=G) ["chr1"; "100"; "rs1"; "A"; "G"; "50"; "PASS"; "AF=0.5"]
    SpecExample.vcf = Err IndexError
  ∧ __init__ (G:=G) ["chr1"; "100"; "rs1"; "A"; "G"; "50"; "PASS"]
      SpecExample.vcf = Err (SystemExit 1 msg_columns)
  ∧ __init__ (G:=G) ["chr1"; "100"; "rs1"] SpecExample.vcf = Err IndexError.
Proof. repeat split. Qed.

End Construction.

(** ** Parsing the INFO column *)

Section InfoParse.
Import PyStr.

Lemma info_store_insert d part :
  info_store d part = <[key_of part := val_of part]> d.
Proof.
  unfold info_store, key_of, val_of.
  destruct (split_cons_inv "=" part) as (k & ws & ->).
  by destruct ws.
Qed.

Lemma split_two_eq part :
  (2 ≤ count "=" part)%nat →
  ∃ K a b, part = K ++ "=" ++ a ++ "=" ++ b
           ∧ mem "=" K = false ∧ mem "=" a = false
           ∧ split "=" part = K :: a :: split "=" b.
Proof.
  intros Hc.
  destruct (mem_first "=" part) as (K & y & -> & HK & Hcy);
    [apply count_pos_mem; lia|].
  destruct (mem_first "=" y) as (a & b & -> & Ha & _);
    [apply count_pos_mem; lia|].
  exists K, a, b. repeat split; try done.
  change ("=" ++ ?t) with (String "=" t).
  by rewrite !split_app_sep.
Qed.

Lemma fold_info_store_other parts d k :
  Forall (λ q, key_of q ≠ k) parts →
  fold_left info_store parts d !! k = d !! k.
Proof.
  revert d. induction parts as [|q parts IH]; intros d Hall; [done|].
  inversion Hall; subst. simpl. rewrite IH by done.
  rewrite info_store_insert. by apply lookup_insert_ne.
Qed.

(** The last part with a given key decides what is stored under it. *)
Lemma parse_info_last col pre part post :
  split ";" col = (pre ++ part :: post)%list →
  Forall (λ q, key_of q ≠ key_of part) post →
  parse_info col !! key_of part = Some (val_of part).
Proof.
  intros Hsplit Hpost. unfold parse_info.
  rewrite Hsplit, fold_left_app. simpl.
  rewrite fold_info_store_other by done.
  rewrite info_store_insert. apply lookup_insert_eq.
Qed.

Lemma part_clean part :
  mem ";" part = false → clean (key_of part) ∧ clean (str (val_of part)).
Proof.
  intros Hsemi. unfold key_of, val_of.
  pose proof (split_pieces_no_sep "=" part) as Heq.
  pose proof (split_pieces_mem "=" ";" part Hsemi) as Hs.
  destruct (split "=" part) as [|k [|w ws]]; simpl.
  - done.
  - inversion Heq; inversion Hs; subst. by repeat split.
  - inversion Heq as [|? ? ? Heq']; inversion Hs as [|? ? ? Hs']; subst.
    inversion Heq'; inversion Hs'; subst. by repeat split.
Qed.

Lemma fold_info_store_clean parts d :
  Forall (λ q, mem ";" q = false) parts →
  (∀ k v, d !! k = Some v → clean k ∧ clean (str v)) →
  ∀ k v, fold_left info_store parts d !! k = Some v → clean k ∧ clean (str v).
Proof.
  revert d. induction parts as [|q parts IH]; intros d Hall Hd; [done|].
  inversion Hall; subst. simpl. apply IH; [done|].
  intros k v. rewrite info_store_insert, lookup_insert.
  case_decide as Hk; [|by apply Hd].
  intros [= <-]. subst k. by apply part_clean.
Qed.

Lemma parse_info_clean col k v :
  parse_info col !! k = Some v → clean k ∧ clean (str v).
Proof.
  apply fold_info_store_clean; [apply split_pieces_no_sep|].
  intros ? ?. by rewrite lookup_empty.
Qed.

(** What is written for a listed field never holds [;] and holds [=] at
    most once. *)
Lemma info_written_clean col f :
  info_listed (parse_info col) f = true →
  mem ";" (info_written (parse_info col) f) = false
  ∧ (count "=" (info_written (parse_info col) f) ≤ 1)%nat.
Proof.
  unfold info_listed, info_written.
  destruct (parse_info col !! info_id f) as [v|] eqn:Hv; [|done].
  destruct (parse_info_clean _ _ _ Hv) as ((Hk1 & Hk2) & (Hv1 & Hv2)).
  intros _. destruct (is_flag f); simpl.
  - split; [done|]. rewrite count_mem_false by done. lia.
  - rewrite !mem_app, !count_app, Hk1, Hv1. simpl.
    rewrite !count_mem_false by done. split; [done|lia].
Qed.

Lemma info_string_spec_ne col fields part :
  part ∈ split ";" col → (2 ≤ count "=" part)%nat →
  info_string_spec (parse_info col) fields ≠ col.
Proof.
  intros Hpart Hc Heq. unfold info_string_spec in Heq.
  set (items := info_written (parse_info col)
                  <$> filter (λ f, info_listed (parse_info col) f = true) fields)
    in Heq.
  assert (Forall (λ w, mem ";" w = false ∧ (count "=" w ≤ 1)%nat) items) as Hitems.
  { apply Forall_fmap, Forall_forall. intros f [Hf _]%list_elem_of_filter.
    by apply info_written_clean. }
  destruct (decide (items = [])) as [Hnil|Hne].
  - rewrite Hnil in Heq. simpl in Heq. subst col. simpl in Hpart.
    apply list_elem_of_singleton in Hpart as ->. simpl in Hc. lia.
  - rewrite <- Heq in Hpart.
    rewrite split_join in Hpart;
      [|done|by eapply Forall_impl; [exact Hitems|intros ? []]].
    rewrite Forall_forall in Hitems. apply Hitems in Hpart as [_ ?]. lia.
Qed.

End InfoParse.

Section InfoRoundTrip.
Context {G : Type}.
Implicit Types (v : Variant G) (var_list : list string) (vcf : Vcf.t).
Import PyStr.

Lemma init_info var_list vcf v col :
  __init__ var_list vcf = Ok v → var_list !! 7 = Some col →
  info v = parse_info col ∧ info_list v = Vcf.info_list vcf.
Proof.
  intros (c0&c1&c2&c3&c4&c5&c6&c7&c8&gt&p&->&_&->)%init_Ok_inv [= <-].
  done.
Qed.

(** C10: a part of the INFO column with two or more [=] reads [K=a=b] with
    no [=] in [K] or [a], and the loop stores [a] alone under [K]; a part
    with no [=] is stored as [True] under its own text; after construction
    the mapping holds [a] under [K] when no later part has the key [K]; and
    the INFO string of the record just built differs from an INFO column
    that has such a part. *)
Theorem C10_info_part_with_two_equals :
  (∀ part, (2 ≤ count "=" part)%nat →
     ∃ K a b, part = K ++ "=" ++ a ++ "=" ++ b
              ∧ mem "=" K = false ∧ mem "=" a = false
              ∧ ∀ d, info_store d part = <[K := PStr a]> d)
  ∧ (∀ part d, mem "=" part = false →
       info_store d part = <[part := PBool true]> d)
  ∧ (∀ var_list vcf v col pre post K a b,
       __init__ var_list vcf = Ok v →
       var_list !! 7 = Some col →
       split ";" col = (pre ++ (K ++ "=" ++ a ++ "=" ++ b)%string :: post)%list →
       mem "=" K = false → mem "=" a = false →
       Forall (λ q, hd "" (split "=" q) ≠ K) post →
       info v !! K = Some (PStr a))
  ∧ (∀ var_list vcf v col part,
       __init__ var_list vcf = Ok v →
       var_list !! 7 = Some col →
       part ∈ split ";" col → (2 ≤ count "=" part)%nat →
       get_info_string v ≠ col).
Proof.
  repeat split.
  - intros part (K & a & b & -> & HK & Ha & Hs)%split_two_eq.
    exists K, a, b. repeat split; try done.
    intros d. unfold info_store. by rewrite Hs.
  - intros part d Hm. unfold info_store. by rewrite split_no_sep_id.
  - intros var_list vcf v col pre post K a b Hv Hcol Hsplit HK Ha Hpost.
    destruct (init_info _ _ _ _ Hv Hcol) as [-> _].
    set (part := K ++ "=" ++ a ++ "=" ++ b) in *.
    assert (split "=" part = K :: a :: split "=" b) as Hs.
    { unfold part.
      change (K ++ "=" ++ a ++ "=" ++ b)
        with (K ++ String "=" (a ++ String "=" b)).
      by rewrite !split_app_sep. }
    assert (key_of part = K) as HKey by (unfold key_of; by rewrite Hs).
    assert (val_of part = PStr a) as HVal by (unfold val_of; by rewrite Hs).
    rewrite <- HKey, <- HVal. eapply parse_info_last; [done|].
    by rewrite HKey.
  - intros var_list vcf v col part Hv Hcol Hpart Hc.
    destruct (init_info _ _ _ _ Hv Hcol) as [Hi Hl].
    rewrite get_info_string_spec, Hi. by eapply info_string_spec_ne.
Qed.

End InfoRoundTrip.

(** ** INFO columns that come back as they were *)

Section InfoNormalForm.
Import PyStr.

Lemma filter_sublist_eq {A} (P : A → Prop) `{∀ x, Decision (P x)}
    (l1 l2 : list A) :
  l1 `sublist_of` l2 → NoDup l2 →
  (∀ x, x ∈ l2 → (P x ↔ x ∈ l1)) →
  filter P l2 = l1.
Proof.
  induction 1 as [|x l1 l2 Hsub IH|x l1 l2 Hsub IH]; intros Hnd HP; [done| |].
  - apply NoDup_cons in Hnd as [Hx Hnd].
    rewrite filter_cons_True by (apply HP; left).
    f_equal. apply IH; [done|]. intros y Hy.
    rewrite (HP y) by (by right). rewrite elem_of_cons.
    split; [|by right]. intros [->|?]; done.
  - apply NoDup_cons in Hnd as [Hx Hnd].
    rewrite filter_cons_False.
    + apply IH; [done|]. intros y Hy. apply HP. by right.
    + rewrite (HP x) by left. intros Hin. apply Hx.
      by eapply elem_of_sublist.
Qed.

Lemma info_text_key e :
  clean (info_id e.1) → clean e.2 → key_of (info_text e) = info_id e.1.
Proof.
  intros [_ Hk] [_ Hv]. unfold key_of, info_text.
  destruct (is_flag e.1).
  - by rewrite split_no_sep_id.
  - change (info_id e.1 ++ "=" ++ e.2) with (info_id e.1 ++ String "=" e.2).
    by rewrite split_app_sep.
Qed.

Lemma info_text_val e :
  clean (info_id e.1) → clean e.2 →
  val_of (info_text e) = if is_flag e.1 then PBool true else PStr e.2.
Proof.
  intros [_ Hk] [_ Hv]. unfold val_of, info_text.
  destruct (is_flag e.1).
  - by rewrite split_no_sep_id.
  - change (info_id e.1 ++ "=" ++ e.2) with (info_id e.1 ++ String "=" e.2).
    by rewrite split_app_sep, split_no_sep_id.
Qed.

Lemma info_text_no_semicolon e :
  clean (info_id e.1) → clean e.2 → mem ";" (info_text e) = false.
Proof.
  intros [Hk _] [Hv _]. unfold info_text.
  destruct (is_flag e.1); [done|].
  by rewrite !mem_app, Hk, Hv.
Qed.

Lemma fold_info_store_lookup parts d part :
  NoDup (key_of <$> parts) → part ∈ parts →
  fold_left info_store parts d !! key_of part = Some (val_of part).
Proof.
  intros Hnd (pre & post & ->)%list_elem_of_split.
  rewrite fmap_app, fmap_cons in Hnd.
  apply NoDup_app in Hnd as (_ & _ & [Hpost _]%NoDup_cons).
  rewrite fold_left_app. simpl. rewrite fold_info_store_other.
  - rewrite info_store_insert. apply lookup_insert_eq.
  - apply Forall_forall. intros q Hq Heq. apply Hpost.
    rewrite <- Heq. by apply list_elem_of_fmap_2.
Qed.

Lemma fold_info_store_absent parts k :
  k ∉ key_of <$> parts → fold_left info_store parts ∅ !! k = None.
Proof.
  intros Hk. rewrite fold_info_store_other; [apply lookup_empty|].
  apply Forall_forall. intros q Hq Heq. apply Hk.
  rewrite <- Heq. by apply list_elem_of_fmap_2.
Qed.

(** With distinct declared ids, an INFO column that lists some of the
    declared fields in declared order, each in the serializer's form and
    with ids and values free of [;] and [=], is its own INFO string. *)
Lemma info_normal_form (fields : list InfoField)
    (used : list (InfoField * string)) :
  NoDup (info_id <$> fields) →
  used.*1 `sublist_of` fields → used ≠ [] →
  Forall (λ e, clean (info_id e.1) ∧ clean e.2) used →
  info_string_spec (parse_info (join ";" (info_text <$> used))) fields
  = join ";" (info_text <$> used).
Proof.
  intros Hnd Hsub Hne Hclean.
  rewrite Forall_forall in Hclean.
  set (parts := info_text <$> used).
  assert (split ";" (join ";" parts) = parts) as Hsplit.
  { apply split_join; [by destruct used|].
    apply Forall_fmap, Forall_forall. intros e He.
    destruct (Hclean e He). by apply info_text_no_semicolon. }
  assert (key_of <$> parts = info_id <$> used.*1) as Hkeys.
  { unfold parts. rewrite <- !list_fmap_compose.
    apply Forall_fmap_ext_1, Forall_forall. intros e He. simpl.
    destruct (Hclean e He). by apply info_text_key. }
  assert (NoDup (key_of <$> parts)) as Hndk.
  { rewrite Hkeys. eapply sublist_NoDup; [exact Hnd|]. by apply fmap_sublist. }
  set (d := parse_info (join ";" parts)).
  assert (∀ e, e ∈ used →
            d !! info_id e.1
            = Some (if is_flag e.1 then PBool true else PStr e.2)) as Hd.
  { intros e He. destruct (Hclean e He) as [Hk Hv].
    rewrite <- (info_text_key e), <- (info_text_val e) by done.
    unfold d, parse_info. rewrite Hsplit.
    apply fold_info_store_lookup; [done|]. by apply list_elem_of_fmap_2. }
  assert (∀ k, k ∉ info_id <$> used.*1 → d !! k = None) as Hnone.
  { intros k Hk. unfold d, parse_info. rewrite Hsplit.
    apply fold_info_store_absent. by rewrite Hkeys. }
  unfold info_string_spec. fold d. f_equal.
  rewrite (filter_sublist_eq _ (used.*1) fields Hsub (NoDup_fmap_1 _ _ Hnd)).
  - unfold parts. rewrite <- list_fmap_compose.
    apply Forall_fmap_ext_1, Forall_forall. intros e He. simpl.
    unfold info_written, info_text. rewrite (Hd e He).
    by destruct (is_flag e.1).
  - intros f Hf. split.
    + intros Hl. unfold info_listed in Hl.
      destruct (d !! info_id f) as [v|] eqn:Hv; [|done].
      destruct (decide (info_id f ∈ info_id <$> used.*1)) as [Hin|Hnin];
        [|by rewrite Hnone in Hv].
      apply list_elem_of_fmap in Hin as (f' & Hid & Hf').
      assert (f' ∈ fields) as Hf'' by (by eapply elem_of_sublist).
      assert (f = f') as ->; [|done].
      clear -Hnd Hf Hf'' Hid.
      induction fields as [|x fields IH]; [by apply not_elem_of_nil in Hf|].
      rewrite fmap_cons in Hnd. apply NoDup_cons in Hnd as [Hx Hnd].
      apply elem_of_cons in Hf as [->|Hf]; apply elem_of_cons in Hf'' as [->|Hf''];
        try done.
      * exfalso. apply Hx. rewrite Hid. by apply list_elem_of_fmap_2.
      * exfalso. apply Hx. rewrite <- Hid. by apply list_elem_of_fmap_2.
      * by apply IH.
    + intros (e & -> & He)%list_elem_of_fmap.
      unfold info_listed. rewrite (Hd e He). by destruct (is_flag e.1).
Qed.

End InfoNormalForm.

(** ** Lazy genotypes *)

Section Genotypes.
Context {G : Type} `{GenotypeClass G}.
Implicit Types (self : Variant G) (parsed : gmap string G).
Import PyStr.

Lemma genotype_parsed self parsed s :
  gts self = Some parsed →
  genotype s self
  = (match parsed !! s with
     | Some g => Ok g
     | None => die (msg_sample s)
     end, self).
Proof.
  intros Hg. unfold genotype, bind, get, ret, lift; simpl.
  rewrite Hg; simpl. rewrite Hg. by destruct (parsed !! s).
Qed.

Lemma genotype_raw self s f raw :
  gts self = None → format_string self = Some f → gts_string self = Some raw →
  genotype s self
  = match _parse_genotypes self (split ":" f) (split tab raw) with
    | Ok parsed =>
        (match parsed !! s with
         | Some g => Ok g
         | None => die (msg_sample s)
         end, with_format_string None (with_gts (Some parsed) self))
    | Err e => (Err e, self)
    end.
Proof.
  intros Hg Hf Hr. unfold genotype, bind, get, ret, lift, modify; simpl.
  rewrite Hg, Hf, Hr; simpl.
  destruct (_parse_genotypes self (split ":" f) (split tab raw)); simpl; [|done].
  by destruct (a !! s).
Qed.

(** A successful first access found both raw strings in place. *)
Lemma genotype_raw_Ok self s g self' :
  gts self = None → genotype s self = (Ok g, self') →
  ∃ f raw parsed,
    format_string self = Some f ∧ gts_string self = Some raw
    ∧ _parse_genotypes self (split ":" f) (split tab raw) = Ok parsed
    ∧ parsed !! s = Some g
    ∧ self' = with_format_string None (with_gts (Some parsed) self).
Proof.
  intros Hg Hs.
  destruct (format_string self) as [f|] eqn:Hf; cycle 1.
  { unfold genotype, bind, get, lift in Hs; simpl in Hs.
    rewrite Hg, Hf in Hs; simpl in Hs. discriminate. }
  destruct (gts_string self) as [raw|] eqn:Hr; cycle 1.
  { unfold genotype, bind, get, lift in Hs; simpl in Hs.
    rewrite Hg, Hf, Hr in Hs; simpl in Hs. discriminate. }
  rewrite (genotype_raw self s f raw) in Hs by done.
  destruct (_parse_genotypes self (split ":" f) (split tab raw))
    as [parsed|] eqn:Hp; [|discriminate].
  destruct (parsed !! s) as [g'|] eqn:Hl; [|discriminate].
  injection Hs as -> <-. by exists f, raw, parsed.
Qed.

Lemma genotype_strings_parsed self parsed samples :
  gts self = Some parsed →
  genotype_strings samples self
  = (columns_from_genotypes parsed (active_format_list self) samples, self).
Proof.
  intros Hg. induction samples as [|s rest IH]; simpl; [done|].
  unfold bind. rewrite (genotype_parsed self parsed s) by done.
  destruct (parsed !! s) as [g|]; simpl; [|done].
  rewrite IH. by destruct (columns_from_genotypes _ _ rest).
Qed.

(** One turn of the loop, when it does not raise, stores one entry under
    the name of the sample. *)
Lemma sample_turn_insert tags name x (acc acc' : gmap string G) :
  except_IndexError (parse_sample tags name x acc) (missing_sample name acc)
  = Ok acc' →
  ∃ g, acc' = <[name := g]> acc.
Proof.
  unfold parse_sample, missing_sample.
  destruct (index (split ":" x) 0) as [gt|e]; simpl.
  - destruct (Genotype gt) as [g|e]; simpl.
    + destruct (set_formats tags (split ":" x) g) as [g'|e]; simpl.
      * intros [= <-]. eauto.
      * destruct e; simpl; try discriminate.
        destruct (Genotype "./.") as [g0|]; simpl; [|discriminate].
        intros [= <-]. eauto.
    + destruct e; simpl; try discriminate.
      destruct (Genotype "./.") as [g0|]; simpl; [|discriminate].
      intros [= <-]. eauto.
  - destruct e; simpl; try discriminate.
    destruct (Genotype "./.") as [g0|]; simpl; [|discriminate].
    intros [= <-]. eauto.
Qed.

(** So the mapping the loop returns is not empty when there was a column
    to parse. *)
Lemma parse_genotypes_from_nonempty self tags i arr acc parsed :
  parse_genotypes_from self tags i arr acc = Ok parsed →
  arr ≠ [] ∨ acc ≠ ∅ → parsed ≠ ∅.
Proof.
  revert i acc. induction arr as [|x arr IH]; intros i acc; simpl.
  - intros [= <-] [?|?]; done.
  - destruct (index (sample_list self) i) as [name|]; simpl; [|done].
    destruct (except_IndexError _ _) as [acc'|] eqn:Hacc; simpl; [|done].
    intros Hrec _. apply (IH _ _ Hrec). right.
    apply sample_turn_insert in Hacc as [g ->]. apply insert_non_empty.
Qed.

(** The samples that get a genotype are those of the columns that are
    there, not those that the header declares. *)
Lemma parse_genotypes_from_dom self tags i arr acc parsed :
  parse_genotypes_from self tags i arr acc = Ok parsed →
  ∀ s, is_Some (parsed !! s) →
       is_Some (acc !! s)
       ∨ ∃ j, (i ≤ j < i + length arr)%nat ∧ sample_list self !! j = Some s.
Proof.
  revert i acc. induction arr as [|x arr IH]; intros i acc; simpl.
  - intros [= <-] s Hs. by left.
  - destruct (index (sample_list self) i) as [name|] eqn:Hname; simpl; [|done].
    destruct (except_IndexError _ _) as [acc'|] eqn:Hacc; simpl; [|done].
    intros Hrec s Hs. destruct (IH _ _ Hrec s Hs) as [Hin|(j & Hj & Hlook)].
    + apply sample_turn_insert in Hacc as [g ->].
      rewrite lookup_insert in Hin. case_decide; subst; [|by left].
      right. exists i. split; [lia|].
      unfold index in Hname. destruct (sample_list self !! i); by simplify_eq.
    + right. exists j. split; [lia|done].
Qed.

Lemma get_gt_string_cached self :
  get_gt_string true self = (Ok (gts_string self), self).
Proof. unfold get_gt_string, bind, get, ret; simpl. by destruct (gts_truthy self). Qed.

Lemma get_gt_string_raw self b :
  gts self = None → get_gt_string b self = (Ok (gts_string self), self).
Proof.
  intros Hg. unfold get_gt_string, bind, get, ret, gts_truthy; simpl.
  by rewrite Hg.
Qed.

Lemma get_gt_string_resynthesized self parsed :
  gts self = Some parsed → parsed ≠ ∅ →
  get_gt_string false self
  = (rmap (λ cols, Some (join TAB cols))
       (columns_from_genotypes parsed (active_format_list self)
          (sample_list self)), self).
Proof.
  intros Hg Hne. unfold get_gt_string, bind, get, ret, gts_truthy; simpl.
  rewrite Hg, bool_decide_eq_false_2 by done. simpl.
  rewrite (genotype_strings_parsed self parsed) by done.
  by destruct (columns_from_genotypes _ _ _).
Qed.

(** C2: the first successful access to a genotype moves the record from
    raw to parsed for good and discards the cached FORMAT string; the raw
    genotype-columns string is kept as it was.  From then on the default
    serialization resynthesizes the genotype columns from the parsed
    genotypes, one per declared sample in header order, whereas a request
    for the cached string is answered with the raw string that was kept. *)
Theorem C2_first_genotype_access self s g self' :
  gts self = None → genotype s self = (Ok g, self') →
  (∃ parsed, gts self' = Some parsed ∧ parsed ≠ ∅ ∧ parsed !! s = Some g
     ∧ get_gt_string false self'
       = (rmap (λ cols, Some (join TAB cols))
            (columns_from_genotypes parsed (active_format_list self')
               (sample_list self')), self'))
  ∧ format_string self' = None
  ∧ (∃ raw, gts_string self = Some raw ∧ gts_string self' = Some raw
       ∧ get_gt_string true self' = (Ok (Some raw), self'))
  ∧ (∀ s2, (genotype s2 self').2 = self').
Proof.
  intros Hg Hs.
  destruct (genotype_raw_Ok _ _ _ _ Hg Hs)
    as (f & raw & parsed & Hf & Hr & Hp & Hl & ->).
  assert (parsed ≠ ∅) as Hne.
  { eapply parse_genotypes_from_nonempty; [exact Hp|]. left.
    apply split_nonempty. }
  repeat split.
  - exists parsed. repeat split; try done.
    by apply get_gt_string_resynthesized.
  - exists raw. repeat split; try done.
    rewrite get_gt_string_cached. simpl. by rewrite Hr.
  - intros s2. by rewrite (genotype_parsed _ parsed).
Qed.

(** C3: what the code does for a declared sample that has no column.  The
    parse walks the columns that are there, so such a sample (its name not
    borne by an earlier sample) gets no genotype, missing-call or other:
    the mapping has no entry for it, and asking for its genotype ends in
    [exit(1)] on the unknown name (or in the error of the parse). *)
Theorem C3_sample_without_column self s j f raw :
  gts self = None → format_string self = Some f → gts_string self = Some raw →
  sample_list self !! j = Some s →
  (length (split tab raw) ≤ j)%nat →
  (∀ i, (i < length (split tab raw))%nat → sample_list self !! i ≠ Some s) →
  (∀ parsed, _parse_genotypes self (split ":" f) (split tab raw) = Ok parsed →
             parsed !! s = None)
  ∧ (genotype s self).1
    = match _parse_genotypes self (split ":" f) (split tab raw) with
      | Ok _ => Err (SystemExit 1 (msg_sample s))
      | Err e => Err e
      end.
Proof.
  intros Hg Hf Hr Hj Hlen Hfresh.
  assert (∀ parsed,
            _parse_genotypes self (split ":" f) (split tab raw) = Ok parsed →
            parsed !! s = None) as Hnone.
  { intros parsed Hp. destruct (parsed !! s) as [g|] eqn:Hl; [|done].
    exfalso. unfold _parse_genotypes in Hp.
    destruct (parse_genotypes_from_dom _ _ _ _ _ _ Hp s)
      as [Hin|(i & Hi & Hlook)]; [by eexists| |].
    - rewrite lookup_empty in Hin. by destruct Hin.
    - apply (Hfresh i); [lia|done]. }
  split; [done|].
  rewrite (genotype_raw self s f raw) by done.
  destruct (_parse_genotypes self (split ":" f) (split tab raw))
    as [parsed|e] eqn:Hp; [|done].
  simpl. by rewrite (Hnone parsed).
Qed.

End Genotypes.

(** ** The FORMAT string *)

Section FormatString.
Context {G : Type} `{GenotypeClass G}.
Implicit Types (self : Variant G).
Import PyStr.

(** When every tag of a FORMAT column is declared, the declared ids
    filtered to the tags of the column, joined and split again, are the
    tags of the column. *)
Lemma resynthesized_tags (fl : list FormatField) raw t :
  Forall (λ w, w ∈ format_id <$> fl) (split ":" raw) →
  t ∈ split ":" raw
  ↔ t ∈ split ":"
        (join ":" (filter (λ w, w ∈ (list_to_set (split ":" raw) : gset string))
                     (format_id <$> fl))).
Proof.
  intros Hdecl.
  set (L := filter (λ w, w ∈ (list_to_set (split ":" raw) : gset string))
              (format_id <$> fl)).
  assert (∀ w, w ∈ L ↔ w ∈ split ":" raw) as HL.
  { intros w. unfold L. rewrite list_elem_of_filter, elem_of_list_to_set.
    rewrite Forall_forall in Hdecl.
    split; [by intros [? ?]|]. intros Hw. split; [done|by apply Hdecl]. }
  rewrite split_join; [by rewrite HL| |].
  - destruct (split_cons_inv ":" raw) as (w & ws & Hw).
    assert (w ∈ L) as Hin by (apply HL; rewrite Hw; apply list_elem_of_here).
    intros HLnil. rewrite HLnil in Hin. by apply not_elem_of_nil in Hin.
  - apply Forall_forall. intros w Hw%HL.
    pose proof (split_pieces_no_sep ":" raw) as Hp.
    rewrite Forall_forall in Hp. by apply Hp.
Qed.

(** C8: while the FORMAT string is still cached it is returned verbatim;
    after the first successful genotype access it is gone and the FORMAT
    string is the [:]-join of the declared ids that are active, in declared
    order; with the active set still that of the raw column, the two
    strings have the same tags when every tag of the raw column is
    declared in the header. *)
Theorem C8_get_format_string self :
  (∀ raw, format_string self = Some raw → get_format_string self = raw)
  ∧ (∀ s g self' raw,
       gts self = None → format_string self = Some raw →
       genotype s self = (Ok g, self') →
       format_string self' = None
       ∧ active_formats self' = active_formats self
       ∧ get_format_string self'
         = join ":" (filter (λ t, t ∈ active_formats self)
                       (format_id <$> format_list self))
       ∧ (active_formats self = list_to_set (split ":" raw) →
          Forall (λ t, t ∈ format_id <$> format_list self) (split ":" raw) →
          ∀ t, t ∈ split ":" raw ↔ t ∈ split ":" (get_format_string self'))).
Proof.
  split.
  - intros raw Hraw. unfold get_format_string. by rewrite Hraw.
  - intros s g self' raw Hg Hraw Hs.
    destruct (genotype_raw_Ok _ _ _ _ Hg Hs)
      as (f & r & parsed & Hf & Hr & Hp & Hl & ->).
    assert (get_format_string
              (with_format_string None (with_gts (Some parsed) self))
            = join ":" (filter (λ t, t ∈ active_formats self)
                          (format_id <$> format_list self))) as Hfs.
    { unfold get_format_string; simpl. by rewrite active_ids_in_order_filter. }
    split; [done|]. split; [done|]. split; [done|].
    intros Hact Hdecl t. rewrite Hfs, Hact. by apply resynthesized_tags.
Qed.

End FormatString.

(** ** The full line *)

Section FullLine.
Context {G : Type} `{GenotypeClass G}.
Implicit Types (v : Variant G) (var_list : list string) (vcf : Vcf.t).
Import PyStr.

Lemma join_cons_nonempty sep x l :
  l ≠ [] → join sep (x :: l) = x ++ sep ++ join sep l.
Proof. by destruct l. Qed.

(** Joining with the tail already joined is joining the whole, when the
    tail is not empty. *)
Lemma join_tail_joined sep l tail :
  tail ≠ [] → join sep (l ++ [join sep tail])%list = join sep (l ++ tail)%list.
Proof.
  intros Ht. induction l as [|x l IH]; [done|].
  change ((x :: l) ++ ?t)%list with (x :: (l ++ t))%list.
  rewrite !join_cons_nonempty, IH; [done| |].
  - by destruct l, tail.
  - by destruct l.
Qed.

(** The line of a record that is still as [__init__] built it. *)
Lemma get_var_string_built c0 c2 c3 c4 c5 c6 c7 c8 p gt vcf b :
  get_var_string b (built (G:=G) c0 c2 c3 c4 c5 c6 c7 c8 p gt vcf)
  = (Ok (join TAB ([c0; str_int p; c2; c3; c4; c5; c6;
                    info_string_spec (parse_info c7) (Vcf.info_list vcf);
                    c8] ++ [join TAB gt])%list),
     built c0 c2 c3 c4 c5 c6 c7 c8 p gt vcf).
Proof.
  unfold get_var_string. unfold bind at 1. unfold get at 1. cbn beta iota.
  rewrite (bool_decide_eq_false_2 (format_string _ = None)) by done.
  rewrite andb_false_r. cbn [negb].
  unfold bind at 1. rewrite get_gt_string_raw by done.
  simpl. by rewrite get_info_string_spec.
Qed.

(** C1: for a line of ten columns or more (so with a genotype column),
    whose position column is the decimal text of the integer it parses to
    and whose INFO column is the INFO string of the record built from it,
    the line serialized right after construction is the input line, byte
    for byte: the other fixed columns, the FORMAT column and the genotype
    columns come back as they were read, and the record is unchanged. *)
Theorem C1_round_trip var_list vcf v b :
  __init__ var_list vcf = Ok v →
  (10 ≤ length var_list)%nat →
  var_list !! 1 = Some (str_int (pos v)) →
  var_list !! 7 = Some (get_info_string v) →
  get_var_string b v = (Ok (join TAB var_list), v).
Proof.
  intros (c0&c1&c2&c3&c4&c5&c6&c7&c8&gt&p&->&Hp&->)%init_Ok_inv Hlen Hpos Hinfo.
  change (Some c1 = Some (str_int p)) in Hpos.
  change (Some c7 = Some (get_info_string
                            (built (G:=G) c0 c2 c3 c4 c5 c6 c7 c8 p gt vcf)))
    in Hinfo.
  injection Hpos as ->. injection Hinfo as Hinfo.
  rewrite get_info_string_spec in Hinfo.
  change (c7 = info_string_spec (parse_info c7) (Vcf.info_list vcf)) in Hinfo.
  rewrite get_var_string_built, <- Hinfo. f_equal. f_equal.
  apply join_tail_joined. destruct gt; [simpl in Hlen; lia|done].
Qed.

(** A line in the serializer's own form comes back byte for byte: the
    position in decimal, the INFO column as in [info_normal_form], a FORMAT
    column and at least one genotype column. *)
Corollary round_trip_normal_form c0 c2 c3 c4 c5 c6 c8 g0 gt p used vcf b :
  int (str_int p) = Some p →
  NoDup (info_id <$> Vcf.info_list vcf) →
  used.*1 `sublist_of` Vcf.info_list vcf → used ≠ [] →
  Forall (λ e, clean (info_id e.1) ∧ clean e.2) used →
  let var_list :=
    c0 :: str_int p :: c2 :: c3 :: c4 :: c5 :: c6
       :: join ";" (info_text <$> used) :: c8 :: g0 :: gt in
  ∃ v : Variant G,
    __init__ var_list vcf = Ok v
    ∧ get_var_string b v = (Ok (join TAB var_list), v).
Proof.
  intros Hp Hnd Hsub Hne Hclean var_list.
  assert (__init__ var_list vcf
          = Ok (built (G:=G) c0 c2 c3 c4 c5 c6
                  (join ";" (info_text <$> used)) c8 p (g0 :: gt) vcf)) as Hv
    by (unfold var_list; by apply init_nine).
  eexists. split; [exact Hv|].
  rewrite get_var_string_built, info_normal_form by done.
  reflexivity.
Qed.

End FullLine.

(** ** The theorems at the worked records *)

Section Checks.
Import PyStr Records.

Example init_record1 : __init__ SpecExample.var_list SpecExample.vcf = Ok record1.
Proof. reflexivity. Qed.

Example init_record_short :
  __init__ var_list_short SpecExample.vcf = Ok record_short.
Proof. reflexivity. Qed.

Example init_record_unknown_tag :
  __init__ var_list_unknown_tag SpecExample.vcf = Ok record_unknown_tag.
Proof. reflexivity. Qed.

Example get_info_AF : (get_info "AF" record1).1 = Ok (PStr "0.5").
Proof. vm_compute. reflexivity. Qed.

Example get_info_string_record1 : get_info_string record1 = "AF=0.5;DB".
Proof. vm_compute. reflexivity. Qed.

Example genotype_S1 : (genotype "S1" record1).1 = Ok g1.
Proof. vm_compute. reflexivity. Qed.

Example get_var_string_record1 :
  (get_var_string false record1).1 = Ok SpecExample.line.
Proof. vm_compute. reflexivity. Qed.

(** A position written [007] is read as 7 and written back as [7]. *)
Example position_not_canonical :
  rmap (λ v : Variant SpecGenotype.t, (get_var_string false v).1)
    (__init__ ["chr1"; "007"; "rs1"; "A"; "G"; "50"; "PASS"; "DB"; "GT"; "0/1"]
       SpecExample.vcf)
  = Ok (Ok (join TAB ["chr1"; "7"; "rs1"; "A"; "G"; "50"; "PASS"; "DB"; "GT"; "0/1"])).
Proof. vm_compute. reflexivity. Qed.

Lemma C1_round_trip_witness :
  __init__ SpecExample.var_list SpecExample.vcf = Ok record1
  ∧ get_var_string false record1 = (Ok (join TAB SpecExample.var_list), record1).
Proof.
  split; [reflexivity|].
  apply (C1_round_trip SpecExample.var_list SpecExample.vcf record1 false).
  - reflexivity.
  - simpl. lia.
  - vm_compute. reflexivity.
  - vm_compute. reflexivity.
Defined.

(** With the INFO parts in another order than the header's, the line that
    comes back is not the line that went in. *)
Lemma C1_counterexample :
  ∃ v : Variant SpecGenotype.t,
    __init__ var_list_swapped SpecExample.vcf = Ok v
    ∧ (get_var_string false v).1 = Ok (join TAB SpecExample.var_list)
    ∧ (get_var_string false v).1 ≠ Ok (join TAB var_list_swapped).
Proof.
  eexists. split; [reflexivity|]. split; [vm_compute; reflexivity|].
  vm_compute. discriminate.
Qed.

Lemma C2_first_genotype_access_witness :
  gts record1 = None
  ∧ format_string (genotype "S1" record1).2 = None
  ∧ gts_string (genotype "S1" record1).2 = gts_string record1.
Proof.
  split; [reflexivity|].
  destruct (C2_first_genotype_access record1 "S1" g1 (genotype "S1" record1).2)
    as (_ & Hf & (raw & Hraw & Hraw' & _) & _).
  - reflexivity.
  - vm_compute. reflexivity.
  - split; [exact Hf|]. rewrite Hraw, Hraw'. reflexivity.
Defined.

(** After a genotype has been touched the raw genotype columns are still
    there, and the request for the cached string returns them. *)
Lemma C2_counterexample :
  __init__ SpecExample.var_list SpecExample.vcf = Ok record1
  ∧ gts_string record1 = Some raw1
  ∧ (genotype "S1" record1).1 = Ok g1
  ∧ gts_string (genotype "S1" record1).2 = Some raw1
  ∧ (get_gt_string true (genotype "S1" record1).2).1 = Ok (Some raw1).
Proof. repeat split; vm_compute; reflexivity. Qed.

Lemma C3_sample_without_column_witness :
  sample_list record_short !! 1%nat = Some "S2"
  ∧ (genotype "S1" record_short).1 = Ok g1
  ∧ (genotype "S2" record_short).1 = Err (SystemExit 1 (msg_sample "S2")).
Proof.
  split; [reflexivity|]. split; [vm_compute; reflexivity|].
  destruct (C3_sample_without_column record_short "S2" 1 "GT:DP" "0/1:30")
    as [_ Hg].
  - reflexivity.
  - reflexivity.
  - reflexivity.
  - reflexivity.
  - vm_compute. lia.
  - intros [|i] Hi; [discriminate|vm_compute in Hi; lia].
  - rewrite Hg. vm_compute. reflexivity.
Defined.

Lemma C4_get_info_string_witness :
  get_info_string
    (set_info "DB" (PBool true) (set_info "AF" (PStr "0.1") record1).2).2
  = get_info_string
      (set_info "AF" (PStr "0.1") (set_info "DB" (PBool true) record1).2).2.
Proof.
  destruct (C4_get_info_string record1) as (_ & _ & _ & Hswap).
  apply Hswap. discriminate.
Defined.

Lemma C6_set_info_witness :
  (set_info "XX" (PStr "1") record1).2 = record1
  ∧ info (set_info "AF" (PStr "0.1") record1).2 !! "AF" = Some (PStr "0.1").
Proof.
  destruct (C6_set_info record1 "XX" (PStr "1")) as [Hun _].
  destruct (C6_set_info record1 "AF" (PStr "0.1")) as [_ Hde].
  split.
  - apply Hun. apply (bool_decide_unpack _). vm_compute. exact I.
  - apply Hde. apply (bool_decide_unpack _). vm_compute. exact I.
Defined.

Lemma C7_update_active_format_list_witness :
  "XX" ∈ active_formats (update_active_format_list record_unknown_tag).2
  ∧ "XX" ∉ active_format_list (update_active_format_list record_unknown_tag).2.
Proof.
  destruct (C7_update_active_format_list record_unknown_tag)
    as (_ & _ & _ & _ & Htag).
  apply Htag.
  - apply (bool_decide_unpack _). vm_compute. exact I.
  - apply (bool_decide_unpack _). vm_compute. exact I.
Defined.

Lemma C8_get_format_string_witness :
  get_format_string record1 = "GT:DP"
  ∧ get_format_string (genotype "S1" record1).2
    = join ":" (filter (λ t, t ∈ active_formats record1)
                  (format_id <$> format_list record1))
  ∧ ("DP" ∈ split ":" "GT:DP"
     ↔ "DP" ∈ split ":" (get_format_string (genotype "S1" record1).2)).
Proof.
  destruct (C8_get_format_string record1) as [Hraw Hparsed].
  split; [by apply Hraw|].
  destruct (Hparsed "S1" g1 (genotype "S1" record1).2 "GT:DP")
    as (_ & _ & Hfs & Htags).
  - reflexivity.
  - reflexivity.
  - vm_compute. reflexivity.
  - split; [exact Hfs|]. apply Htags.
    + reflexivity.
    + apply (bool_decide_unpack _). vm_compute. exact I.
Defined.

(** A tag of the raw FORMAT column that the header does not declare is
    lost in the resynthesized FORMAT string, the active set unchanged. *)
Lemma C8_counterexample :
  __init__ var_list_unknown_tag SpecExample.vcf = Ok record_unknown_tag
  ∧ (∃ g, (genotype "S1" record_unknown_tag).1 = Ok g)
  ∧ active_formats (genotype "S1" record_unknown_tag).2
    = active_formats record_unknown_tag
  ∧ get_format_string record_unknown_tag = "GT:XX"
  ∧ get_format_string (genotype "S1" record_unknown_tag).2 = "GT"
  ∧ "XX" ∈ split ":" (get_format_string record_unknown_tag)
  ∧ "XX" ∉ split ":" (get_format_string (genotype "S1" record_unknown_tag).2).
Proof.
  split; [reflexivity|].
  split; [eexists; vm_compute; reflexivity|].
  split; [reflexivity|]. split; [reflexivity|].
  split; [vm_compute; reflexivity|].
  split; apply (bool_decide_unpack _); vm_compute; exact I.
Qed.

Lemma C9_init_eight_columns_witness :
  __init__ (G:=SpecGenotype.t) var_list_eight SpecExample.vcf = Err IndexError
  ∧ (9 ≤ length SpecExample.var_list)%nat
  ∧ ∃ v : Variant SpecGenotype.t,
      __init__ SpecExample.var_list SpecExample.vcf = Ok v.
Proof.
  destruct (C9_init_eight_columns (G:=SpecGenotype.t) var_list_eight SpecExample.vcf)
    as (Height & _ & _).
  destruct (C9_init_eight_columns (G:=SpecGenotype.t)
              SpecExample.var_list SpecExample.vcf) as (_ & Honly & Hnine).
  split; [|split].
  - apply Height; [reflexivity|]. exists "100", 100%Z. split; reflexivity.
  - apply (Honly record1). reflexivity.
  - apply Hnine; [simpl; lia|]. exists "100", 100%Z. split; reflexivity.
Defined.

(** Eight columns and a position that is not a number: the error is the
    ValueError of [int], not an out-of-range read. *)
Lemma C9_counterexample :
  length var_list_eight_bad_pos = 8%nat
  ∧ __init__ (G:=SpecGenotype.t) var_list_eight_bad_pos SpecExample.vcf
    = Err ValueError
  ∧ __init__ (G:=SpecGenotype.t) var_list_eight_bad_pos SpecExample.vcf
    ≠ Err IndexError.
Proof. repeat split. discriminate. Qed.

Lemma C10_info_part_with_two_equals_witness :
  (∃ K a b, "AF=0.5=x" = K ++ "=" ++ a ++ "=" ++ b
            ∧ mem "=" K = false ∧ mem "=" a = false
            ∧ ∀ d, info_store d "AF=0.5=x" = <[K := PStr a]> d)
  ∧ info_store ∅ "DB" = <[ "DB" := PBool true ]> ∅
  ∧ get_info_string
      (built (G:=SpecGenotype.t) "chr1" "rs1" "A" "G" "50" "PASS"
         "AF=0.5=x;DB" "GT:DP" 100 ["0/1:30"; "0/0:25"] SpecExample.vcf)
    ≠ "AF=0.5=x;DB".
Proof.
  destruct (C10_info_part_with_two_equals (G:=SpecGenotype.t))
    as (Htwo & Hflag & _ & Hne).
  split; [|split].
  - apply Htwo. simpl. lia.
  - apply Hflag. reflexivity.
  - apply (Hne var_list_two_equals SpecExample.vcf _ "AF=0.5=x;DB" "AF=0.5=x").
    + reflexivity.
    + reflexivity.
    + apply (bool_decide_unpack _). vm_compute. exact I.
    + simpl. lia.
Defined.

End Checks.

(** * Further properties *)

(** ** Reading and writing INFO values *)

Section InfoAccess.
Context {G : Type}.
Implicit Types (self v : Variant G) (var_list : list string) (vcf : Vcf.t).
Import PyStr.

Lemma get_info_state self k : (get_info k self).2 = self.
Proof. unfold get_info, bind, get; simpl. by destruct (info self !! k). Qed.

Lemma get_info_result self k :
  (get_info k self).1
  = match info self !! k with
    | Some x => Ok x
    | None => Err (KeyError k)
    end.
Proof. unfold get_info, bind, get; simpl. by destruct (info self !! k). Qed.

(** What [set_info] stored is what [get_info] reads: after a write to a
    declared id that id reads as the value written and every other key
    reads as before; a refused write changes no reading. *)
Theorem set_info_then_get_info self field value :
  (field ∈ info_id <$> info_list self →
     (get_info field (set_info field value self).2).1 = Ok value
     ∧ ∀ k, k ≠ field →
            (get_info k (set_info field value self).2).1 = (get_info k self).1)
  ∧ (field ∉ info_id <$> info_list self →
     ∀ k, (get_info k (set_info field value self).2).1 = (get_info k self).1).
Proof.
  split; intros Hin.
  - rewrite set_info_declared by done. simpl. rewrite !get_info_result. simpl.
    rewrite lookup_insert_eq. split; [done|].
    intros k Hk. rewrite !get_info_result. simpl.
    by rewrite lookup_insert_ne.
  - intros k. by rewrite set_info_undeclared.
Qed.

Lemma fold_info_store_None parts (d : gmap string pyval) k :
  fold_left info_store parts d !! k = None
  ↔ d !! k = None ∧ k ∉ key_of <$> parts.
Proof.
  revert d. induction parts as [|q parts IH]; intros d; simpl.
  - split; [intros ?; split; [done|apply not_elem_of_nil]|by intros []].
  - rewrite IH, info_store_insert, lookup_insert, not_elem_of_cons.
    case_decide as Hk; subst; split.
    + intros [[=] _].
    + intros [_ [? _]]. done.
    + intros [? ?]. by repeat split.
    + intros [? [? ?]]. done.
Qed.

(** Reading an INFO value right after construction: the read raises
    KeyError exactly when no part of the INFO column has that key, whether
    or not the header declares it; otherwise it returns what the last part
    with that key holds; and a read never changes the record. *)
Theorem get_info_after_init var_list vcf v col k :
  __init__ var_list vcf = Ok v → var_list !! 7%nat = Some col →
  ((get_info k v).1 = Err (KeyError k) ↔ k ∉ key_of <$> split ";" col)
  ∧ (∀ pre part post,
       split ";" col = (pre ++ part :: post)%list →
       key_of part = k → Forall (λ q, key_of q ≠ k) post →
       (get_info k v).1 = Ok (val_of part))
  ∧ (get_info k v).2 = v.
Proof.
  intros Hv Hcol. destruct (init_info _ _ _ _ Hv Hcol) as [Hi _].
  rewrite get_info_state, get_info_result, Hi. repeat split.
  - destruct (parse_info col !! k) eqn:Hk; [done|]. intros _.
    unfold parse_info in Hk. by apply fold_info_store_None in Hk as [_ ?].
  - intros Hk.
    assert (parse_info col !! k = None) as ->; [|done].
    unfold parse_info. apply fold_info_store_None.
    split; [apply lookup_empty|done].
  - intros pre part post Hsplit <- Hpost.
    by rewrite (parse_info_last col pre part post).
Qed.

Lemma info_append_fold_ext (d1 d2 : gmap string pyval) fields acc :
  (∀ f, f ∈ fields → d1 !! info_id f = d2 !! info_id f) →
  fold_left (info_append d1) fields acc = fold_left (info_append d2) fields acc.
Proof.
  revert acc. induction fields as [|f fields IH]; intros acc Hagree; [done|].
  simpl. unfold info_append at 2 4. rewrite (Hagree f) by left.
  apply IH. intros f' Hf'. apply Hagree. by right.
Qed.

(** The INFO string depends on the mapping only through the values of the
    ids that the header declares: whatever is stored under other keys (as
    construction does for undeclared keys of the INFO column) is never
    written. *)
Theorem get_info_string_declared_only (a b : Variant G) :
  info_list a = info_list b →
  (∀ f, f ∈ info_list a → info a !! info_id f = info b !! info_id f) →
  get_info_string a = get_info_string b.
Proof.
  intros Hl Hagree. unfold get_info_string. rewrite <- Hl.
  by rewrite (info_append_fold_ext (info a) (info b)).
Qed.

End InfoAccess.

(** ** The outcomes of construction *)

Section InitOutcome.
Context {G : Type}.
Implicit Types (v : Variant G) (var_list : list string) (vcf : Vcf.t).



End InitOutcome.

(** ** The parse of the genotype columns *)

Section GenotypeParse.
Context {G : Type} `{GenotypeClass G}.
Implicit Types (self : Variant G) (parsed acc : gmap string G).
Import PyStr.

Lemma sample_turn tags name col acc :
  except_IndexError (parse_sample tags name col acc) (missing_sample name acc)
  = rmap (λ g, <[name := g]> acc) (sample_genotype tags col).
Proof.
  unfold parse_sample, missing_sample, sample_genotype.
  destruct (index (split ":" col) 0) as [gt|e]; simpl;
    [destruct (Genotype gt) as [g|e]; simpl;
     [destruct (set_formats tags (split ":" col) g) as [g'|e]; simpl|]|];
    try done;
    destruct e; simpl; try done; by destruct (Genotype "./.").
Qed.

Lemma parse_genotypes_from_cons self tags i col rest acc :
  parse_genotypes_from self tags i (col :: rest) acc
  = match index (sample_list self) i with
    | Ok name =>
        match sample_genotype tags col with
        | Ok g => parse_genotypes_from self tags (S i) rest (<[name := g]> acc)
        | Err e => Err e
        end
    | Err e => Err e
    end.
Proof.
  simpl. destruct (index (sample_list self) i) as [name|]; simpl; [|done].
  rewrite sample_turn. by destruct (sample_genotype tags col).
Qed.

Lemma index_Ok {A} (l : list A) i x : index l i = Ok x ↔ l !! i = Some x.
Proof. unfold index. destruct (l !! i); split; congruence. Qed.

Lemma index_Err {A} (l : list A) i e :
  index l i = Err e ↔ e = IndexError ∧ (length l ≤ i)%nat.
Proof.
  unfold index. destruct (l !! i) eqn:Hl.
  - apply lookup_lt_Some in Hl. split; [done|]. intros [_ ?]. lia.
  - apply lookup_ge_None in Hl. split; [by intros [= <-]|by intros [-> _]].
Qed.

Lemma sample_genotype_first_field col :
  index (split ":" col) 0 = Ok (hd "" (split ":" col)).
Proof. by destruct (split_cons_inv ":" col) as (w & ws & ->). Qed.

(** More columns than declared samples. *)
Lemma parse_genotypes_from_too_many self tags i arr acc :
  (i ≤ length (sample_list self))%nat →
  (length (sample_list self) < i + length arr)%nat →
  (∃ e, parse_genotypes_from self tags i arr acc = Err e)
  ∧ ((∀ col, col ∈ arr → ∃ g, sample_genotype tags col = Ok g) →
     parse_genotypes_from self tags i arr acc = Err IndexError).
Proof.
  revert i acc. induction arr as [|col arr IH]; intros i acc Hi Hlen.
  { simpl in Hlen. lia. }
  rewrite parse_genotypes_from_cons.
  destruct (index (sample_list self) i) as [name|e] eqn:Hname.
  - apply index_Ok, lookup_lt_Some in Hname.
    destruct (sample_genotype tags col) as [g|e] eqn:Hg.
    + destruct (IH (S i) (<[name := g]> acc)) as [He Hall];
        [lia|simpl in Hlen; lia|].
      split; [done|]. intros Hcols. apply Hall.
      intros c Hc. apply Hcols. by right.
    + split; [by eexists|]. intros Hcols.
      destruct (Hcols col) as [g Hg']; [left|]. congruence.
  - apply index_Err in Hname as [-> _]. split; [by eexists|done].
Qed.

(** A sample that no turn of the loop names keeps the entry it had. *)
Lemma parse_genotypes_from_untouched self tags i arr acc parsed s :
  parse_genotypes_from self tags i arr acc = Ok parsed →
  (∀ j, (i ≤ j < i + length arr)%nat → sample_list self !! j ≠ Some s) →
  parsed !! s = acc !! s.
Proof.
  revert i acc. induction arr as [|col arr IH]; intros i acc.
  { by intros [= <-] _. }
  rewrite parse_genotypes_from_cons.
  destruct (index (sample_list self) i) as [name|] eqn:Hname; [|done].
  destruct (sample_genotype tags col) as [g|]; [|done].
  intros Hrec Hfresh. rewrite (IH _ _ Hrec).
  - apply lookup_insert_ne. intros ->. apply index_Ok in Hname.
    apply (Hfresh i); [simpl; lia|done].
  - intros j Hj. apply Hfresh. simpl. lia.
Qed.

(** The entry of a sample is the genotype of the last column that bears
    its name. *)
Lemma parse_genotypes_from_entry self tags i arr acc parsed k col s :
  parse_genotypes_from self tags i arr acc = Ok parsed →
  arr !! k = Some col → sample_list self !! (i + k)%nat = Some s →
  (∀ j, (i + k < j < i + length arr)%nat → sample_list self !! j ≠ Some s) →
  ∃ g, sample_genotype tags col = Ok g ∧ parsed !! s = Some g.
Proof.
  revert i acc k. induction arr as [|c arr IH]; intros i acc k; [done|].
  rewrite parse_genotypes_from_cons.
  destruct (index (sample_list self) i) as [name|] eqn:Hname; [|done].
  destruct (sample_genotype tags c) as [g|] eqn:Hg; [|done].
  intros Hrec Hk Hs Hfresh. destruct k as [|k].
  - simpl in Hk. injection Hk as ->. exists g. split; [done|].
    rewrite Nat.add_0_r in Hs. apply index_Ok in Hname.
    assert (name = s) as -> by congruence.
    rewrite (parse_genotypes_from_untouched _ _ _ _ _ _ s Hrec).
    + apply lookup_insert_eq.
    + intros j Hj. apply Hfresh. simpl. lia.
  - simpl in Hk. apply (IH (S i) _ k Hrec Hk).
    + by replace (S i + k)%nat with (i + S k)%nat by lia.
    + intros j Hj. apply Hfresh. simpl. lia.
Qed.

(** Every sample that a turn names has an entry at the end. *)
Lemma parse_genotypes_from_named self tags i arr acc parsed :
  parse_genotypes_from self tags i arr acc = Ok parsed →
  (∀ s, is_Some (acc !! s) → is_Some (parsed !! s))
  ∧ (∀ j s, (i ≤ j < i + length arr)%nat → sample_list self !! j = Some s →
            is_Some (parsed !! s)).
Proof.
  revert i acc. induction arr as [|col arr IH]; intros i acc.
  { intros [= <-]. split; [done|]. intros j s Hj. simpl in Hj. lia. }
  rewrite parse_genotypes_from_cons.
  destruct (index (sample_list self) i) as [name|] eqn:Hname; [|done].
  destruct (sample_genotype tags col) as [g|]; [|done].
  intros Hrec. destruct (IH _ _ Hrec) as [Hacc Hnamed]. split.
  - intros s Hs. apply Hacc. rewrite lookup_insert. by case_decide.
  - intros j s Hj Hjs. destruct (decide (j = i)) as [->|Hne].
    + apply index_Ok in Hname. assert (name = s) as -> by congruence.
      apply Hacc. rewrite lookup_insert_eq. by eexists.
    + apply (Hnamed j); [simpl in Hj; lia|done].
Qed.

(** The error of the first column that fails is the error of the parse. *)
Lemma parse_genotypes_from_first_error self tags i pre col post acc e :
  (i + length pre < length (sample_list self))%nat →
  Forall (λ c, ∃ g, sample_genotype tags c = Ok g) pre →
  sample_genotype tags col = Err e →
  parse_genotypes_from self tags i (pre ++ col :: post) acc = Err e.
Proof.
  revert i acc. induction pre as [|c pre IH]; intros i acc Hlen Hpre Hcol.
  - simpl app. rewrite parse_genotypes_from_cons.
    destruct (index (sample_list self) i) as [name|e'] eqn:Hname.
    + by rewrite Hcol.
    + apply index_Err in Hname as [_ ?]. simpl in Hlen. lia.
  - inversion Hpre as [|? ? [g Hg] Hpre']; subst.
    change ((c :: pre) ++ col :: post)%list with (c :: (pre ++ col :: post))%list.
    rewrite parse_genotypes_from_cons.
    destruct (index (sample_list self) i) as [name|e'] eqn:Hname.
    + rewrite Hg. apply IH; [simpl in Hlen; lia|done|done].
    + apply index_Err in Hname as [_ ?]. simpl in Hlen. lia.
Qed.

(** With more genotype columns than the header declares samples (so also
    with no declared sample at all, a split line having at least one
    column) the first genotype access of a raw record fails, for any
    sample name, and leaves the record raw; the error is the IndexError of
    the read of the sample name when no column raises on its own. *)
Theorem genotype_too_many_columns self s f raw :
  gts self = None → format_string self = Some f → gts_string self = Some raw →
  (length (sample_list self) < length (split tab raw))%nat →
  (∃ e, genotype s self = (Err e, self))
  ∧ ((∀ col, col ∈ split tab raw →
             ∃ g, sample_genotype (split ":" f) col = Ok g) →
     genotype s self = (Err IndexError, self)).
Proof.
  intros Hg Hf Hr Hlen. rewrite (genotype_raw self s f raw) by done.
  unfold _parse_genotypes.
  destruct (parse_genotypes_from_too_many self (split ":" f) 0
              (split tab raw) ∅) as [[e He] Hall]; [lia|simpl; lia|].
  split.
  - exists e. by rewrite He.
  - intros Hcols. by rewrite (Hall Hcols).
Qed.

(** A parse that succeeds had no more columns than declared samples, and
    the samples that have a genotype afterwards are exactly those named by
    the positions of the columns that were there. *)
Theorem parse_genotypes_samples self tags arr parsed :
  _parse_genotypes self tags arr = Ok parsed →
  (length arr ≤ length (sample_list self))%nat
  ∧ ∀ s, is_Some (parsed !! s)
         ↔ ∃ j, (j < length arr)%nat ∧ sample_list self !! j = Some s.
Proof.
  unfold _parse_genotypes. intros Hp. split.
  - destruct (decide (length arr ≤ length (sample_list self))%nat); [done|].
    destruct (parse_genotypes_from_too_many self tags 0 arr ∅)
      as [[e He] _]; [lia|simpl; lia|]. congruence.
  - intros s. split.
    + intros Hs.
      destruct (parse_genotypes_from_dom _ _ _ _ _ _ Hp s Hs)
        as [Hin|(j & Hj & Hlook)].
      * rewrite lookup_empty in Hin. by destruct Hin.
      * exists j. split; [lia|done].
    + intros (j & Hj & Hlook).
      destruct (parse_genotypes_from_named _ _ _ _ _ _ Hp) as [_ Hnamed].
      apply (Hnamed j); [lia|done].
Qed.

(** After a successful parse the genotype of a sample is the one made from
    the column at the sample's position (the last such column, should the
    name recur): built from the first sub-field of the column and filled by
    [set_formats] with the tags and all the sub-fields, or built from [./.]
    when the constructor or [set_formats] raised an IndexError. *)
Theorem parse_genotypes_column self tags arr parsed i col s :
  _parse_genotypes self tags arr = Ok parsed →
  arr !! i = Some col → sample_list self !! i = Some s →
  (∀ j, (i < j < length arr)%nat → sample_list self !! j ≠ Some s) →
  (∀ g g', Genotype (hd "" (split ":" col)) = Ok g →
           set_formats tags (split ":" col) g = Ok g' →
           parsed !! s = Some g')
  ∧ (Genotype (hd "" (split ":" col)) = Err IndexError
     ∨ (∃ g, Genotype (hd "" (split ":" col)) = Ok g
             ∧ set_formats tags (split ":" col) g = Err IndexError) →
     ∃ g0, Genotype "./." = Ok g0 ∧ parsed !! s = Some g0).
Proof.
  unfold _parse_genotypes. intros Hp Hcol Hs Hfresh.
  destruct (parse_genotypes_from_entry self tags 0 arr ∅ parsed i col s)
    as (g & Hg & Hl); try done.
  unfold sample_genotype in Hg. rewrite sample_genotype_first_field in Hg.
  simpl in Hg. split.
  - intros g1 g' Hg1 Hg'. rewrite Hg1 in Hg. simpl in Hg. rewrite Hg' in Hg.
    simpl in Hg. congruence.
  - intros [Hg1|(g1 & Hg1 & Hg')].
    + rewrite Hg1 in Hg. simpl in Hg. by exists g.
    + rewrite Hg1 in Hg. simpl in Hg. rewrite Hg' in Hg. simpl in Hg.
      by exists g.
Qed.

(** Only an IndexError is caught: when the columns before one are parsed
    and have a sample each, an error of that column other than a caught
    IndexError (or the error of building the [./.] genotype) is the error
    of the whole parse, and no mapping is returned. *)
Theorem parse_genotypes_first_error self tags pre col post e :
  (length pre < length (sample_list self))%nat →
  Forall (λ c, ∃ g, sample_genotype tags c = Ok g) pre →
  sample_genotype tags col = Err e →
  _parse_genotypes self tags (pre ++ col :: post) = Err e.
Proof.
  intros Hlen Hpre Hcol. unfold _parse_genotypes.
  by apply parse_genotypes_from_first_error.
Qed.

(** A first access that fails: when the parse itself fails the record stays
    as it was, raw; when the parse succeeds and the name asked for has no
    genotype, the call ends in [exit(1)] but the record has moved to the
    parsed state all the same, and later accesses read the mapping. *)
Theorem genotype_failed_access self s f raw :
  gts self = None → format_string self = Some f → gts_string self = Some raw →
  (∀ e, _parse_genotypes self (split ":" f) (split tab raw) = Err e →
        genotype s self = (Err e, self))
  ∧ (∀ parsed,
       _parse_genotypes self (split ":" f) (split tab raw) = Ok parsed →
       parsed !! s = None →
       (genotype s self).1 = Err (SystemExit 1 (msg_sample s))
       ∧ gts (genotype s self).2 = Some parsed
       ∧ format_string (genotype s self).2 = None
       ∧ ∀ s' g, parsed !! s' = Some g →
                 (genotype s' (genotype s self).2).1 = Ok g).
Proof.
  intros Hg Hf Hr. rewrite (genotype_raw self s f raw) by done. split.
  - by intros e ->.
  - intros parsed -> Hs. rewrite Hs. simpl. repeat split.
    intros s' g Hs'.
    rewrite (genotype_parsed _ parsed) by done. by rewrite Hs'.
Qed.




End GenotypeParse.

(** ** Serialization in any state *)

Section Serialization.
Context {G : Type} `{GenotypeClass G}.
Implicit Types (self v : Variant G) (parsed : gmap string G)
  (var_list : list string) (vcf : Vcf.t).
Import PyStr.

Lemma get_gt_string_state self b : (get_gt_string b self).2 = self.
Proof.
  destruct b; [by rewrite get_gt_string_cached|].
  unfold get_gt_string, bind, get, ret, gts_truthy; simpl.
  destruct (gts self) as [parsed|] eqn:Hg; [|done].
  destruct (bool_decide (parsed = ∅)); simpl; [done|].
  rewrite (genotype_strings_parsed self parsed) by done.
  by destruct (columns_from_genotypes _ _ _).
Qed.

Lemma get_var_string_unfold self b :
  get_var_string b self
  = let fields :=
      [chrom self; str_int (pos self); var_id self; ref self; alt self;
       qual self; filter_ self; get_info_string self] in
    if negb ((size (active_formats self) =? 0)%nat
             && bool_decide (format_string self = None))
    then match (get_gt_string b self).1 with
         | Ok (Some g) =>
             (Ok (join TAB (fields ++ [get_format_string self; g])%list), self)
         | Ok None => (die msg_gts, self)
         | Err e => (Err e, self)
         end
    else (Ok (join TAB fields), self).
Proof.
  unfold get_var_string. unfold bind at 1. unfold get at 1. cbn beta iota zeta.
  destruct (negb _); [|done].
  unfold bind at 1.
  pose proof (get_gt_string_state self b) as Hs.
  destruct (get_gt_string b self) as [r s']. simpl in Hs. subst s'. simpl.
  by destruct r as [[g|]|e].
Qed.

Lemma get_var_string_state self b : (get_var_string b self).2 = self.
Proof.
  rewrite get_var_string_unfold. cbn zeta.
  destruct (negb _); [|done].
  by destruct ((get_gt_string b self).1) as [[g|]|e].
Qed.

(** Serializing never changes the record: neither the full line nor the
    genotype columns, in either mode and in any state; in particular they
    never trigger the parse of the genotype columns. *)
Theorem serialization_keeps_record self b :
  (get_var_string b self).2 = self
  ∧ (get_gt_string b self).2 = self
  ∧ gts (get_var_string b self).2 = gts self.
Proof.
  split; [apply get_var_string_state|].
  split; [apply get_gt_string_state|by rewrite get_var_string_state].
Qed.

(** The line of a parsed record.  Its FORMAT column is the declared ids
    that are active, in declared order; in the default mode the genotype
    columns are resynthesized, one per declared sample, while with
    [use_cached_gt_string] the raw genotype columns of the input follow that
    resynthesized FORMAT column. *)
Theorem get_var_string_parsed self parsed :
  gts self = Some parsed → parsed ≠ ∅ →
  format_string self = None → active_formats self ≠ ∅ →
  let fields :=
    [chrom self; str_int (pos self); var_id self; ref self; alt self;
     qual self; filter_ self; get_info_string self] in
  let fmt :=
    join ":" (filter (λ t, t ∈ active_formats self)
                (format_id <$> format_list self)) in
  get_var_string false self
  = (rmap (λ cols, join TAB (fields ++ [fmt; join TAB cols])%list)
       (columns_from_genotypes parsed (active_format_list self)
          (sample_list self)), self)
  ∧ ∀ raw, gts_string self = Some raw →
           get_var_string true self
           = (Ok (join TAB (fields ++ [fmt; raw])%list), self).
Proof.
  intros Hg Hne Hf Hact fields fmt.
  assert ((size (active_formats self) =? 0)%nat = false) as Hsize.
  { apply Nat.eqb_neq. apply size_non_empty_iff. by intros ?%leibniz_equiv. }
  assert (get_format_string self = fmt) as Hfmt.
  { unfold get_format_string. rewrite Hf.
    by rewrite active_ids_in_order_filter. }
  split.
  - rewrite get_var_string_unfold. cbn zeta. rewrite Hsize. simpl.
    rewrite (get_gt_string_resynthesized self parsed) by done. simpl.
    rewrite Hfmt. by destruct (columns_from_genotypes _ _ _).
  - intros raw Hraw. rewrite get_var_string_unfold. cbn zeta.
    rewrite Hsize. simpl. rewrite get_gt_string_cached. simpl.
    by rewrite Hraw, Hfmt.
Qed.

Lemma string_app_assoc (a b c : string) : (a ++ b) ++ c = a ++ (b ++ c).
Proof.
  induction a as [|x a IH]; [done|].
  change (String x ((a ++ b) ++ c) = String x (a ++ b ++ c)). by rewrite IH.
Qed.

Lemma string_app_empty (a : string) : a ++ "" = a.
Proof.
  induction a as [|x a IH]; [done|].
  change (String x (a ++ "") = String x a). by rewrite IH.
Qed.

Lemma join_app_empty sep l :
  l ≠ [] → join sep (l ++ [""])%list = join sep l ++ sep.
Proof.
  induction l as [|x l IH]; [done|]. intros _.
  destruct l as [|y l].
  - simpl. by rewrite string_app_empty.
  - change ((x :: y :: l) ++ [""])%list with (x :: ((y :: l) ++ [""]))%list.
    rewrite join_cons_nonempty by done.
    rewrite IH by done. rewrite join_cons.
    by rewrite !string_app_assoc.
Qed.

(** A line of exactly nine columns, so with a FORMAT column and no genotype
    column, does not come back as it was even with the position and the
    INFO column in the serializer's form: the empty cached genotype string
    is written as one more column, so the line gains a tab at its end. *)
Theorem nine_columns_gain_a_tab var_list vcf v b :
  __init__ var_list vcf = Ok v →
  length var_list = 9%nat →
  var_list !! 1%nat = Some (str_int (pos v)) →
  var_list !! 7%nat = Some (get_info_string v) →
  get_var_string b v = (Ok (join TAB var_list ++ TAB), v).
Proof.
  intros (c0&c1&c2&c3&c4&c5&c6&c7&c8&gt&p&->&Hp&->)%init_Ok_inv Hlen Hpos Hinfo.
  destruct gt; [|discriminate Hlen].
  change (Some c1 = Some (str_int p)) in Hpos.
  change (Some c7 = Some (get_info_string
                            (built (G:=G) c0 c2 c3 c4 c5 c6 c7 c8 p [] vcf)))
    in Hinfo.
  injection Hpos as ->. injection Hinfo as Hinfo.
  rewrite get_info_string_spec in Hinfo.
  change (c7 = info_string_spec (parse_info c7) (Vcf.info_list vcf)) in Hinfo.
  rewrite get_var_string_built, <- Hinfo. f_equal. f_equal.
  change (join TAB []) with "". by rewrite join_app_empty.
Qed.

End Serialization.

(** ** What every sequence of calls keeps *)

Section Kept.
Context {G : Type} `{GenotypeClass G}.
Implicit Types (self v : Variant G) (parsed : gmap string G)
  (var_list : list string) (vcf : Vcf.t).
Import PyStr.

Lemma kept_init var_list vcf v : __init__ var_list vcf = Ok v → kept v v.
Proof.
  intros (c0&c1&c2&c3&c4&c5&c6&c7&c8&gt&p&->&_&->)%init_Ok_inv.
  unfold kept; simpl. repeat split; try done; by eexists.
Qed.

Lemma kept_after v self c : kept v self → kept v (after self c).
Proof.
  intros Hk. destruct c as [|field value|field| | |b|s|b]; simpl; try done.
  - rewrite set_info_state. case_bool_decide; exact Hk.
  - by rewrite get_info_state.
  - by rewrite get_gt_string_state.
  - destruct Hk as (Hu & Hne & Hraw & Hgs & Hfix & Hhdr).
    destruct (gts self) as [parsed|] eqn:Hg.
    + rewrite (genotype_parsed self parsed) by done. simpl.
      unfold kept. by rewrite Hg.
    + destruct Hu as [[f Hf] _]; [done|].
      destruct Hraw as [raw Hraw]. rewrite <- Hgs in Hraw.
      rewrite (genotype_raw self s f raw) by done.
      destruct (_parse_genotypes self (split ":" f) (split tab raw))
        as [parsed|e] eqn:Hp; simpl.
      * assert (parsed ≠ ∅) as Hparsed.
        { unfold _parse_genotypes in Hp.
          eapply parse_genotypes_from_nonempty; [exact Hp|].
          left. apply split_nonempty. }
        unfold kept; simpl.
        split; [split; [intros [=]|intros [? [=]]]|].
        split; [by intros [= ->]|].
        split; [rewrite <- Hgs; by eexists|]. done.
      * unfold kept. rewrite Hg.
        split; [split; [by eexists|done]|].
        split; [done|].
        split; [rewrite <- Hgs; by eexists|]. done.
  - by rewrite get_var_string_state.
Qed.

Lemma kept_after_all v self cs : kept v self → kept v (after_all self cs).
Proof.
  revert self. induction cs as [|c cs IH]; intros self Hk; [done|].
  simpl. apply IH. by apply kept_after.
Qed.

Lemma columns_from_genotypes_error parsed order samples e :
  columns_from_genotypes parsed order samples = Err e →
  ∃ s, e = SystemExit 1 (msg_sample s).
Proof.
  induction samples as [|x samples IH]; simpl; [done|].
  destruct (parsed !! x) as [g|].
  - destruct (columns_from_genotypes parsed order samples); simpl; [done|].
    intros [= <-]. by apply IH.
  - intros [= <-]. by exists x.
Qed.

Lemma msg_sample_not_msg_gts s : msg_sample s ≠ msg_gts.
Proof.
  intros Heq.
  apply (f_equal (λ m, match m with String c _ => c | "" => "000"%char end))
    in Heq.
  vm_compute in Heq. discriminate.
Qed.

(** Whatever methods are called on a record after its construction, in any
    order and whether they return or raise: exactly one of the cached
    FORMAT string and the parsed genotype mapping is there, and a mapping
    that is there is not empty; the raw genotype columns stay as read; the
    fixed columns and the header's lists are untouched; and the line
    serializer never takes its [Unable to construct or retrieve genotype
    string] exit. *)
Theorem calls_keep_record var_list vcf v cs :
  __init__ var_list vcf = Ok v →
  kept v (after_all v cs)
  ∧ ∀ b, (get_var_string b (after_all v cs)).1 ≠ Err (SystemExit 1 msg_gts).
Proof.
  intros Hv.
  assert (kept v (after_all v cs)) as Hk
    by (apply kept_after_all; by eapply kept_init).
  split; [done|]. intros b.
  set (self := after_all v cs) in *.
  destruct Hk as (Hu & Hne & [raw Hraw] & Hgs & _ & _).
  rewrite <- Hgs in Hraw.
  rewrite get_var_string_unfold. cbn zeta.
  destruct (negb _); [|done].
  destruct b.
  - rewrite get_gt_string_cached. simpl. by rewrite Hraw.
  - destruct (gts self) as [parsed|] eqn:Hg.
    + rewrite (get_gt_string_resynthesized self parsed);
        [|done|by intros ->].
      simpl.
      destruct (columns_from_genotypes parsed (active_format_list self)
                  (sample_list self)) as [cols|e] eqn:Hc; simpl.
      * discriminate.
      * apply columns_from_genotypes_error in Hc as [s ->].
        intros Heq. apply (msg_sample_not_msg_gts s). congruence.
    + rewrite get_gt_string_raw by done. simpl. by rewrite Hraw.
Qed.

End Kept.

(** ** FORMAT columns that come back as they were *)

Section FormatRoundTrip.
Context {G : Type} `{GenotypeClass G}.
Implicit Types (self : Variant G).
Import PyStr.

(** With distinct declared FORMAT ids, a FORMAT column that lists some of
    the declared ids in declared order comes back byte for byte after the
    first genotype access, when the active set is still that of the
    column. *)
Theorem format_string_round_trip self s g self' tags :
  NoDup (format_id <$> format_list self) →
  tags `sublist_of` (format_id <$> format_list self) → tags ≠ [] →
  Forall (λ t, mem ":" t = false) tags →
  gts self = None → format_string self = Some (join ":" tags) →
  active_formats self = list_to_set (split ":" (join ":" tags)) →
  genotype s self = (Ok g, self') →
  get_format_string self = join ":" tags
  ∧ get_format_string self' = join ":" tags.
Proof.
  intros Hnd Hsub Hne Hclean Hg Hf Hact Hs.
  split; [unfold get_format_string; by rewrite Hf|].
  destruct (genotype_raw_Ok _ _ _ _ Hg Hs)
    as (f & r & parsed & _ & _ & _ & _ & ->).
  unfold get_format_string; simpl.
  rewrite active_ids_in_order_filter, Hact, split_join by done.
  f_equal. apply filter_sublist_eq; [done|done|].
  intros x _. apply elem_of_list_to_set.
Qed.

End FormatRoundTrip.

(** ** INFO columns through construction and back *)

Section InfoColumnRoundTrip.
Context {G : Type}.
Implicit Types (v : Variant G) (var_list : list string) (vcf : Vcf.t).
Import PyStr.

(** With distinct declared INFO ids, an INFO column that lists some of the
    declared fields in declared order, a Flag as its bare id and any other
    field as [id=value], with ids and values free of [;] and [=], is read
    and written back byte for byte by the record built from the line. *)
Theorem info_column_round_trip var_list vcf v used :
  __init__ var_list vcf = Ok v →
  var_list !! 7%nat = Some (join ";" (info_text <$> used)) →
  NoDup (info_id <$> Vcf.info_list vcf) →
  used.*1 `sublist_of` Vcf.info_list vcf → used ≠ [] →
  Forall (λ e, clean (info_id e.1) ∧ clean e.2) used →
  get_info_string v = join ";" (info_text <$> used).
Proof.
  intros Hv Hcol Hnd Hsub Hne Hclean.
  destruct (init_info _ _ _ _ Hv Hcol) as [Hi Hl].
  rewrite get_info_string_spec, Hi, Hl. by apply info_normal_form.
Qed.

End InfoColumnRoundTrip.

(** ** The further properties at worked records *)

Section MoreChecks.
Import PyStr Records MoreRecords.

Example init_record_undeclared_info :
  __init__ var_list_undeclared_info SpecExample.vcf = Ok record_undeclared_info.
Proof. reflexivity. Qed.

Example init_record_nine : __init__ var_list_nine SpecExample.vcf = Ok record_nine.
Proof. reflexivity. Qed.

Example record1_parsed_gts : gts record1_parsed = Some parsed1.
Proof. vm_compute. reflexivity. Qed.

Lemma set_info_then_get_info_witness :
  (get_info "AF" (set_info "AF" (PStr "0.1") record1).2).1 = Ok (PStr "0.1")
  ∧ (get_info "DB" (set_info "XX" (PStr "1") record1).2).1
    = (get_info "DB" record1).1.
Proof.
  destruct (set_info_then_get_info record1 "AF" (PStr "0.1")) as [Hde _].
  destruct (set_info_then_get_info record1 "XX" (PStr "1")) as [_ Hun].
  split.
  - apply Hde. apply (bool_decide_unpack _). vm_compute. exact I.
  - apply Hun. apply (bool_decide_unpack _). vm_compute. exact I.
Defined.

Lemma get_info_after_init_witness :
  (get_info "XX" record_undeclared_info).1 = Ok (PStr "1")
  ∧ ((get_info "END" record_undeclared_info).1 = Err (KeyError "END")
     ↔ "END" ∉ key_of <$> split ";" "AF=0.5;XX=1;DB").
Proof.
  destruct (get_info_after_init var_list_undeclared_info SpecExample.vcf
              record_undeclared_info "AF=0.5;XX=1;DB" "XX")
    as (_ & Hlast & _); [reflexivity|reflexivity|].
  destruct (get_info_after_init var_list_undeclared_info SpecExample.vcf
              record_undeclared_info "AF=0.5;XX=1;DB" "END")
    as (Hkey & _ & _); [reflexivity|reflexivity|].
  split; [|exact Hkey].
  apply (Hlast ["AF=0.5"] "XX=1" ["DB"]).
  - reflexivity.
  - reflexivity.
  - repeat constructor. vm_compute. discriminate.
Defined.

Lemma get_info_string_declared_only_witness :
  get_info_string record_undeclared_info = get_info_string record1.
Proof.
  apply get_info_string_declared_only; [reflexivity|].
  intros f Hf. simpl in Hf.
  apply elem_of_cons in Hf as [->|Hf];
    [|apply elem_of_cons in Hf as [->|Hf]; [|by apply not_elem_of_nil in Hf]];
    vm_compute; reflexivity.
Defined.

Lemma genotype_failed_access_witness :
  (genotype "S9" record1).1 = Err (SystemExit 1 (msg_sample "S9"))
  ∧ gts (genotype "S9" record1).2 = Some parsed1
  ∧ format_string (genotype "S9" record1).2 = None.
Proof.
  destruct (genotype_failed_access record1 "S9" "GT:DP" raw1) as [_ Hok].
  - reflexivity.
  - reflexivity.
  - reflexivity.
  - destruct (Hok parsed1) as (Hr & Hg & Hf & _).
    + vm_compute. reflexivity.
    + vm_compute. reflexivity.
    + by repeat split.
Defined.

Lemma genotype_too_many_columns_witness :
  genotype "S1" record_extra_column = (Err IndexError, record_extra_column).
Proof.
  destruct (genotype_too_many_columns record_extra_column "S1" "GT:DP" raw1)
    as [_ Hidx].
  - reflexivity.
  - reflexivity.
  - reflexivity.
  - vm_compute. lia.
  - apply Hidx. intros col Hcol. unfold sample_genotype.
    rewrite sample_genotype_first_field. eexists. reflexivity.
Defined.

Lemma parse_genotypes_samples_witness :
  (length ["0/1:30"; "0/0:25"] ≤ length (sample_list record1))%nat
  ∧ (is_Some (parsed1 !! "S2")
     ↔ ∃ j, (j < length ["0/1:30"; "0/0:25"])%nat
            ∧ sample_list record1 !! j = Some "S2").
Proof.
  destruct (parse_genotypes_samples record1 ["GT"; "DP"] ["0/1:30"; "0/0:25"]
              parsed1) as [Hlen Hdom].
  - vm_compute. reflexivity.
  - split; [exact Hlen|apply Hdom].
Defined.

Lemma parse_genotypes_column_witness : parsed1 !! "S2" = Some g2.
Proof.
  destruct (parse_genotypes_column record1 ["GT"; "DP"] ["0/1:30"; "0/0:25"]
              parsed1 1 "0/0:25" "S2") as [Hbuilt _].
  - vm_compute. reflexivity.
  - reflexivity.
  - reflexivity.
  - intros j Hj. simpl in Hj. lia.
  - apply (Hbuilt {| SpecGenotype.call := "0/0"; SpecGenotype.format := [] |});
      reflexivity.
Defined.

Lemma parse_genotypes_first_error_witness :
  _parse_genotypes (H:=RaisingGenotype.ops) record_raising ["GT"; "DP"]
    ["0/1:30"; ":25"]
  = Err ValueError.
Proof.
  apply (parse_genotypes_first_error (H:=RaisingGenotype.ops) record_raising
           ["GT"; "DP"] ["0/1:30"] ":25" []).
  - simpl. lia.
  - repeat constructor. eexists. reflexivity.
  - reflexivity.
Defined.


Lemma get_var_string_parsed_witness :
  get_var_string true record1_parsed = (Ok SpecExample.line, record1_parsed).
Proof.
  destruct (get_var_string_parsed record1_parsed parsed1) as [_ Hcached].
  - vm_compute. reflexivity.
  - apply (bool_decide_unpack _). vm_compute. exact I.
  - reflexivity.
  - apply (bool_decide_unpack _). vm_compute. exact I.
  - rewrite (Hcached raw1) by reflexivity. vm_compute. reflexivity.
Defined.

Lemma nine_columns_gain_a_tab_witness :
  get_var_string false record_nine = (Ok (join TAB var_list_nine ++ TAB), record_nine).
Proof.
  apply (nine_columns_gain_a_tab var_list_nine SpecExample.vcf record_nine false).
  - reflexivity.
  - reflexivity.
  - vm_compute. reflexivity.
  - vm_compute. reflexivity.
Defined.

Lemma calls_keep_record_witness :
  kept record1
    (after_all record1
       [call_set_info "AF" (PStr "0.1"); call_genotype "S9";
        call_get_var_string false; call_update_active_format_list]).
Proof.
  destruct (calls_keep_record SpecExample.var_list SpecExample.vcf record1
              [call_set_info "AF" (PStr "0.1"); call_genotype "S9";
               call_get_var_string false; call_update_active_format_list])
    as [Hk _]; [reflexivity|exact Hk].
Defined.

Lemma info_column_round_trip_witness : get_info_string record1 = "AF=0.5;DB".
Proof.
  apply (info_column_round_trip SpecExample.var_list SpecExample.vcf record1
           used1).
  - reflexivity.
  - reflexivity.
  - apply (bool_decide_unpack _). vm_compute. exact I.
  - simpl. reflexivity.
  - discriminate.
  - repeat constructor.
Defined.

Lemma round_trip_normal_form_witness :
  ∃ v : Variant SpecGenotype.t,
    __init__ SpecExample.var_list SpecExample.vcf = Ok v
    ∧ get_var_string false v = (Ok (join TAB SpecExample.var_list), v).
Proof.
  apply (round_trip_normal_form "chr1" "rs1" "A" "G" "50" "PASS" "GT:DP"
           "0/1:30" ["0/0:25"] 100 used1 SpecExample.vcf false).
  - vm_compute. reflexivity.
  - apply (bool_decide_unpack _). vm_compute. exact I.
  - simpl. reflexivity.
  - discriminate.
  - repeat constructor.
Defined.

Lemma format_string_round_trip_witness :
  get_format_string record1 = "GT:DP"
  ∧ get_format_string (genotype "S1" record1).2 = "GT:DP".
Proof.
  apply (format_string_round_trip record1 "S1" g1 (genotype "S1" record1).2
           ["GT"; "DP"]).
  - apply (bool_decide_unpack _). vm_compute. exact I.
  - simpl. reflexivity.
  - discriminate.
  - repeat constructor.
  - reflexivity.
  - reflexivity.
  - reflexivity.
  - vm_compute. reflexivity.
Defined.

End MoreChecks.
